(** * PCAP analyzer: classification, aggregation and alert rules

    A shallow embedding of [server/app.py].  A decoded packet is what the
    handler reads from a scapy packet: its capture time, its length and
    the layers it carries.  Python dictionaries keep insertion order, and
    the rankings depend on it, so [Counter] and [defaultdict] are
    association lists that append new keys at the end. *)

From Stdlib Require Import List ZArith NArith String Ascii Bool Lia.
From Stdlib Require Import Permutation Sorted.
From Stdlib Require Import Floats.SpecFloat.
Import ListNotations.

Local Open Scope string_scope.
Local Open Scope list_scope.
Local Open Scope Z_scope.

(** ** Exceptions *)

Inductive exn : Type :=
| Scapy_Exception (msg : string)
| ZeroDivisionError
| OverflowError
| ValueError
| IndexError
| TypeError
| OSError.

Inductive result (A : Type) : Type :=
| Return (a : A)
| Raise (e : exn).

Arguments Return {A} a.
Arguments Raise {A} e.

Definition bind {A B : Type} (m : result A) (k : A -> result B) : result B :=
  match m with
  | Return a => k a
  | Raise e => Raise e
  end.

Notation "x <- m ;; k" := (bind m (fun x => k))
  (at level 61, m at next level, right associativity).

(** ** Floats and timestamps *)

(** A Python [float] is an IEEE 754 double. *)
Definition float : Type := spec_float.

Definition prec : Z := 53.
Definition emax : Z := 1024.

(** An integer as an exact operand of a float operation. *)
Definition exact (n : Z) : float :=
  match n with
  | Z0 => S754_zero false
  | Zpos p => S754_finite false p 0
  | Zneg p => S754_finite true p 0
  end.

(** A [Decimal]: [coefficient * 10 ^ exponent]. *)
Record decimal : Type := mkDecimal { coefficient : Z; exponent : Z }.

(** What [pkt.time] holds: a float, the type [_iso_time] declares for
    its argument, or scapy's [EDecimal], a subclass of [Decimal], which
    is what [rdpcap] stores in the packets it decodes. *)
Inductive time_value : Type :=
| Float (f : float)
| EDecimal (d : decimal).

(** [float(n)] for a whole number of seconds. *)
Definition seconds (n : Z) : time_value :=
  Float (binary_normalize prec emax n 0 false).

(** ** Decoded packets *)

(** The addresses of a network layer, [pkt[IP].src] and [pkt[IP].dst]. *)
Record addrs : Type := mkAddrs { src : string; dst : string }.

(** [ip] and [ipv6] are [Some] exactly when [pkt.haslayer(IP)] and
    [pkt.haslayer(IPv6)] hold; the four booleans answer [haslayer] for
    TCP, UDP, ICMP and DNS.  [time] is [pkt.time], seconds since the
    epoch.  [plen] is [len(pkt)]. *)
Record packet : Type := mkPacket {
  time : option time_value;
  plen : N;
  ip : option addrs;
  ipv6 : option addrs;
  tcp : bool;
  udp : bool;
  icmp : bool;
  dns : bool
}.

Definition len (pkt : packet) : Z := Z.of_N (plen pkt).

Definition isSome {A : Type} (o : option A) : bool :=
  match o with Some _ => true | None => false end.

(** ** Packet classifier *)

Definition _packet_src_dst (pkt : packet) : option string * option string :=
  match ip pkt with
  | Some a => (Some (src a), Some (dst a))
  | None =>
    match ipv6 pkt with
    | Some a => (Some (src a), Some (dst a))
    | None => (None, None)
    end
  end.

(** [tags.append(t)] when the test holds. *)
Definition append_if (b : bool) (t : string) (tags : list string) : list string :=
  if b then tags ++ [t] else tags.

(** [tags or ["Other"]]: an empty list is falsy. *)
Definition or_other (tags : list string) : list string :=
  match tags with
  | [] => ["Other"]
  | _ :: _ => tags
  end.

Definition _protocol_tags (pkt : packet) : list string :=
  let tags := [] in
  let tags := append_if (tcp pkt) "TCP" tags in
  let tags := append_if (udp pkt) "UDP" tags in
  let tags := append_if (icmp pkt) "ICMP" tags in
  let tags := append_if (dns pkt) "DNS" tags in
  let tags := append_if (isSome (ipv6 pkt)) "IPv6" tags in
  let tags := append_if (isSome (ip pkt)) "IPv4" tags in
  or_other tags.

(** The six layer tests in the order the classifier makes them. *)
Definition layer_tests (pkt : packet) : list (string * bool) :=
  [("TCP", tcp pkt); ("UDP", udp pkt); ("ICMP", icmp pkt); ("DNS", dns pkt);
   ("IPv6", isSome (ipv6 pkt)); ("IPv4", isSome (ip pkt))].

Definition present_layers (pkt : packet) : list string :=
  map fst (filter snd (layer_tests pkt)).

(** ** Insertion-ordered dictionaries *)

Section Dict.
Context {K V : Type}.
Variable eqb : K -> K -> bool.

Fixpoint get (d : list (K * V)) (k : K) : option V :=
  match d with
  | [] => None
  | (k', v) :: d' => if eqb k k' then Some v else get d' k
  end.

(** [d[k] = f(d[k])] on a dictionary whose missing keys read as [dflt]
    ([Counter], [defaultdict]): a key already present keeps its place,
    a new key is appended. *)
Fixpoint update (d : list (K * V)) (k : K) (dflt : V) (f : V -> V)
  : list (K * V) :=
  match d with
  | [] => [(k, f dflt)]
  | (k', v) :: d' =>
    if eqb k k' then (k', f v) :: d' else (k', v) :: update d' k dflt f
  end.

Definition get_or (d : list (K * V)) (k : K) (dflt : V) : V :=
  match get d k with Some v => v | None => dflt end.

Definition keys (d : list (K * V)) : list K := map fst d.
Definition values (d : list (K * V)) : list V := map snd d.
End Dict.

(** [set.add]: only membership and cardinality of a set are observed. *)
Fixpoint set_add (x : string) (s : list string) : list string :=
  match s with
  | [] => [x]
  | y :: s' => if String.eqb x y then s else y :: set_add x s'
  end.

(** ** Aggregation *)

Record flow_stats : Type := mkStats { packets : Z; bytes : Z }.

Definition flow_key : Type := string * string * string.

Definition flow_key_eqb (a b : flow_key) : bool :=
  let '(s1, d1, p1) := a in
  let '(s2, d2, p2) := b in
  String.eqb s1 s2 && String.eqb d1 d2 && String.eqb p1 p2.

(** The test [if src:] on [str | None]: [None] and the empty string are
    falsy.  The result is the address when the test passes. *)
Definition truthy (o : option string) : option string :=
  match o with
  | Some s => if String.eqb s "" then None else Some s
  | None => None
  end.

(** [src or "unknown"]. *)
Definition or_str (o : option string) (d : string) : string :=
  match truthy o with Some s => s | None => d end.

Definition transport_label (pkt : packet) : string :=
  if tcp pkt then "TCP" else if udp pkt then "UDP" else "Other".

Definition packet_flow_key (pkt : packet) : flow_key :=
  let '(s, d) := _packet_src_dst pkt in
  (or_str s "unknown", or_str d "unknown", transport_label pkt).

(** The source and destination the loop attributes a packet to: the
    endpoints that pass the tests [if src:] and [if dst:]. *)
Definition src_of (pkt : packet) : option string :=
  truthy (fst (_packet_src_dst pkt)).

Definition dst_of (pkt : packet) : option string :=
  truthy (snd (_packet_src_dst pkt)).

Definition is_host (o : option string) (h : string) : bool :=
  match o with Some s => String.eqb h s | None => false end.

(** The four containers the loop of [parse_pcap] mutates. *)
Record agg : Type := mkAgg {
  protocol_counts : list (string * Z);
  talkers : list (string * Z);
  unique_hosts : list string;
  flows : list (flow_key * flow_stats)
}.

Definition agg_empty : agg := mkAgg [] [] [] [].

Definition zero_stats : flow_stats := mkStats 0 0.

(** One iteration of [for pkt in packets]. *)
Definition loop_body (st : agg) (pkt : packet) : agg :=
  let protocol_counts :=
    fold_left (fun c tag => update String.eqb c tag 0 (fun n => n + 1))
              (_protocol_tags pkt) (protocol_counts st) in
  let '(s, d) := _packet_src_dst pkt in
  let '(talkers, unique_hosts) :=
    match truthy s with
    | Some h =>
      (update String.eqb (talkers st) h 0 (fun n => n + len pkt),
       set_add h (unique_hosts st))
    | None => (talkers st, unique_hosts st)
    end in
  let unique_hosts :=
    match truthy d with
    | Some h => set_add h unique_hosts
    | None => unique_hosts
    end in
  let proto := transport_label pkt in
  let flow_key := (or_str s "unknown", or_str d "unknown", proto) in
  let flows :=
    update flow_key_eqb (flows st) flow_key zero_stats
           (fun fs => mkStats (packets fs + 1) (bytes fs)) in
  let flows :=
    update flow_key_eqb flows flow_key zero_stats
           (fun fs => mkStats (packets fs) (bytes fs + len pkt)) in
  mkAgg protocol_counts talkers unique_hosts flows.

Definition aggregate (pkts : list packet) : agg :=
  fold_left loop_body pkts agg_empty.

(** [len(packets)] and [sum(len(pkt) for pkt in packets)]. *)
Definition packet_count_of (pkts : list packet) : Z :=
  Z.of_nat (List.length pkts).

(** The builtin [sum] over integers. *)
Definition sum (l : list Z) : Z := fold_left Z.add l 0.

Definition total_bytes_of (pkts : list packet) : Z := sum (map len pkts).

(** ** Rankings *)

Section Sorted.
Context {A : Type}.
Variable key : A -> Z.

(** [x] comes from before every element of [l] in the input, so it
    goes in front of the first element whose key is not larger. *)
Fixpoint insert_desc (x : A) (l : list A) : list A :=
  match l with
  | [] => [x]
  | y :: l' => if key x <? key y then y :: insert_desc x l' else x :: l
  end.

(** [sorted(l, key=key, reverse=True)]: descending keys, and elements
    with equal keys keep the order they have in [l]. *)
Definition sorted_desc (l : list A) : list A :=
  fold_right insert_desc [] l.

(** Descending order of the keys, and the test for one key value. *)
Definition desc (a b : A) : Prop := key b <= key a.

Definition has_key (k : Z) (a : A) : bool := key a =? k.
End Sorted.

Module TopTalker.
(** [{"ip": host, "bytes": bytes_}] *)
Record item : Type := mk { ip : string; bytes : Z }.
End TopTalker.

Module FlowItem.
Record item : Type := mk {
  src : string;
  dst : string;
  protocol : string;
  bytes : Z;
  packets : Z
}.
End FlowItem.

Definition talker_item (item : string * Z) : TopTalker.item :=
  let '(host, bytes_) := item in TopTalker.mk host bytes_.

Definition top_talkers_of (talkers : list (string * Z)) : list TopTalker.item :=
  map talker_item (firstn 12 (sorted_desc (fun item => snd item) talkers)).

Definition flow_item (item : flow_key * flow_stats) : FlowItem.item :=
  let '((src, dst, proto), stats) := item in
  FlowItem.mk src dst proto (bytes stats) (packets stats).

Definition flow_items_of (flows : list (flow_key * flow_stats))
  : list FlowItem.item :=
  map flow_item (firstn 12 (sorted_desc (fun item => bytes (snd item)) flows)).

(** [top] ranks the entries [all] of a dictionary, each emitted through
    [f]: descending byte totals, 12 entries or all of them when there are
    fewer, all of them taken from the dictionary, entries of equal total
    in dictionary order, and no entry left out is larger than one
    emitted. *)
Definition ranked {A B : Type} (key : A -> Z) (f : A -> B) (bkey : B -> Z)
  (all : list A) (top : list B) : Prop :=
  StronglySorted (desc bkey) top
  /\ (List.length top <= 12)%nat
  /\ List.length top = Nat.min 12 (List.length all)
  /\ (forall e, In e top -> exists a, In a all /\ f a = e)
  /\ (forall k, exists rest,
        map f (filter (has_key key k) all) = filter (has_key bkey k) top ++ rest)
  /\ (forall a e, In a all -> ~ In (f a) top -> In e top -> key a <= bkey e).

(** The keys of a list in the order they are first met. *)
Section FirstSeen.
Context {K : Type}.
Variable eqb : K -> K -> bool.

Definition note (seen : list K) (k : K) : list K :=
  if existsb (eqb k) seen then seen else seen ++ [k].

Definition first_seen (l : list K) : list K := fold_left note l [].
End FirstSeen.

(** The sources of the packets that have one, in capture order. *)
Definition sources (pkts : list packet) : list string :=
  flat_map (fun p => match src_of p with Some h => [h] | None => [] end) pkts.

(** ** Integer division and builtins *)

(** The quotient [a / b] rounds to a double only if it lies below
    [2^1024 - 2^970], half a unit in the last place above the largest
    double. *)
Definition quotient_overflows (a b : Z) : bool :=
  (2 ^ 1024 - 2 ^ 970) * Z.abs b <=? Z.abs a.

(** [a / b] on integers: the exact quotient rounded once to the nearest
    double; [ZeroDivisionError] when [b] is 0 and [OverflowError] when
    the quotient is too large for a double. *)
Definition int_truediv (a b : Z) : result float :=
  if b =? 0 then Raise ZeroDivisionError
  else if quotient_overflows a b then Raise OverflowError
  else Return (SFdiv prec emax (exact a) (exact b)).

(** The literals [0.35] and [0.6]: the doubles nearest to 35/100 and
    6/10. *)
Definition float_0_35 : float := SFdiv prec emax (exact 35) (exact 100).
Definition float_0_6 : float := SFdiv prec emax (exact 6) (exact 10).

(** [x > y] on floats. *)
Definition float_gt (x y : float) : bool := SFltb y x.

(** The builtin [max] over a non-empty iterable of integers; it raises
    [ValueError] on an empty one. *)
Definition max (l : list Z) : result Z :=
  match l with
  | [] => Raise ValueError
  | x :: l' => Return (fold_left Z.max l' x)
  end.

(** [l[i]] with Python's negative indices. *)
Definition getitem {A : Type} (l : list A) (i : Z) : result A :=
  let n := Z.of_nat (List.length l) in
  let j := if i <? 0 then i + n else i in
  if (j <? 0) || (n <=? j) then Raise IndexError
  else match nth_error l (Z.to_nat j) with
       | Some a => Return a
       | None => Raise IndexError
       end.

(** ** Timestamps *)

Module dt.
(** A [datetime] in UTC. *)
Record datetime : Type := mk {
  year : Z;
  month : Z;
  day : Z;
  hour : Z;
  minute : Z;
  second : Z;
  microsecond : Z
}.

Definition _DAYS_IN_MONTH : list Z :=
  [-1; 31; 28; 31; 30; 31; 30; 31; 31; 30; 31; 30; 31].

Definition _DAYS_BEFORE_MONTH : list Z :=
  [-1; 0; 31; 59; 90; 120; 151; 181; 212; 243; 273; 304; 334].

Definition table (t : list Z) (i : Z) : Z := nth (Z.to_nat i) t 0.

(** The date of an ordinal of the proleptic Gregorian calendar, day 1
    being 0001-01-01, as [datetime] computes it. *)
Definition _ord2ymd (n : Z) : Z * Z * Z :=
  let n := n - 1 in
  let n400 := n / 146097 in
  let n := n mod 146097 in
  let year := n400 * 400 + 1 in
  let n100 := n / 36524 in
  let n := n mod 36524 in
  let n4 := n / 1461 in
  let n := n mod 1461 in
  let n1 := n / 365 in
  let n := n mod 365 in
  let year := year + n100 * 100 + n4 * 4 + n1 in
  if (n1 =? 4) || (n100 =? 4) then (year - 1, 12, 31)
  else
    let leapyear := (n1 =? 3) && (negb (n4 =? 24) || (n100 =? 3)) in
    let month := Z.shiftr (n + 50) 5 in
    let preceding :=
      table _DAYS_BEFORE_MONTH month
      + (if (2 <? month) && leapyear then 1 else 0) in
    let '(month, preceding) :=
      if n <? preceding
      then (month - 1,
            preceding - (table _DAYS_IN_MONTH (month - 1)
                         + (if (month - 1 =? 2) && leapyear then 1 else 0)))
      else (month, preceding) in
    (year, month, n - preceding + 1).

(** The ordinals of 1970-01-01 and of 9999-12-31. *)
Definition epoch_ordinal : Z := 719163.
Definition max_ordinal : Z := 3652059.

(** [modf(d)] for a finite [d]: the fractional part, a float with the
    sign of [d], and the integral part. *)
Definition modf (d : float) : float * Z :=
  match d with
  | S754_finite s m e =>
    let sign := if s then -1 else 1 in
    if 0 <=? e then (S754_zero s, sign * (Zpos m * 2 ^ e))
    else
      let q := Zpos m / 2 ^ (- e) in
      let r := Zpos m mod 2 ^ (- e) in
      (match r with Zpos p => S754_finite s p e | _ => S754_zero s end,
       sign * q)
  | _ => (d, 0)
  end.

(** The nearest integer to a finite float, a tie going to the even one
    ([_PyTime_RoundHalfEven]). *)
Definition round_half_even (x : float) : Z :=
  match x with
  | S754_finite s m e =>
    let sign := if s then -1 else 1 in
    if 0 <=? e then sign * (Zpos m * 2 ^ e)
    else
      let q := Zpos m / 2 ^ (- e) in
      let r := Zpos m mod 2 ^ (- e) in
      let half := 2 ^ (- e - 1) in
      sign * (if (half <? r) || ((r =? half) && Z.odd q) then q + 1 else q)
  | _ => 0
  end.

(** The seconds and microseconds [fromtimestamp] reads from its
    argument.  A [Decimal] is neither a float nor an integer:
    [TypeError].  A float is split by [modf], its fraction is multiplied
    by [1e6] in double precision and rounded half to even, and a result
    outside [0, 1e6) is carried into the seconds; NaN gives [ValueError],
    seconds beyond a 64-bit [time_t] give [OverflowError]. *)
Definition to_timeval (obj : time_value) : result (Z * Z) :=
  match obj with
  | EDecimal _ => Raise TypeError
  | Float d =>
    match d with
    | S754_nan => Raise ValueError
    | S754_infinity _ => Raise OverflowError
    | _ =>
      let '(floatpart, intpart) := modf d in
      let floatpart :=
        round_half_even (SFmul prec emax floatpart (exact 1000000)) in
      let '(floatpart, intpart) :=
        if 1000000 <=? floatpart then (floatpart - 1000000, intpart + 1)
        else if floatpart <? 0 then (floatpart + 1000000, intpart - 1)
        else (floatpart, intpart) in
      if (intpart <? - 2 ^ 63) || (2 ^ 63 <? intpart) then Raise OverflowError
      else Return (intpart, floatpart)
    end
  end.

(** The first and last second [gmtime] converts where [time_t] has 64
    bits and the year of [struct tm] 32 (Linux with glibc). *)
Definition gmtime_min : Z := -67768040609740800.
Definition gmtime_max : Z := 67768036191676799.

(** [datetime.fromtimestamp(timestamp, timezone.utc)]: [OSError] when
    [gmtime] cannot convert the seconds, [ValueError] when the year falls
    outside 1..9999. *)
Definition fromtimestamp (timestamp : time_value) : result datetime :=
  tv <- to_timeval timestamp ;;
  let '(timet, us) := tv in
  if (timet <? gmtime_min) || (gmtime_max <? timet) then Raise OSError
  else
    let n := timet / 86400 + epoch_ordinal in
    let rem := timet mod 86400 in
    if (n <? 1) || (max_ordinal <? n) then Raise ValueError
    else
      let '(y, m, d) := _ord2ymd n in
      Return (mk y m d (rem / 3600) (rem mod 3600 / 60) (rem mod 60) us).

Definition digit (n : Z) : ascii := ascii_of_nat (48 + Z.to_nat (n mod 10)).

(** [n] in decimal on [w] digits, zero padded: the format [%0wd]. *)
Fixpoint pad (w : nat) (n : Z) : string :=
  match w with
  | O => ""
  | S w' => pad w' (n / 10) ++ String (digit n) ""
  end.

(** [d.isoformat()] of an aware datetime in UTC. *)
Definition isoformat (d : datetime) : string :=
  pad 4 (year d) ++ "-" ++ pad 2 (month d) ++ "-" ++ pad 2 (day d)
  ++ "T" ++ pad 2 (hour d) ++ ":" ++ pad 2 (minute d) ++ ":"
  ++ pad 2 (second d)
  ++ (if microsecond d =? 0 then "" else "." ++ pad 6 (microsecond d))
  ++ "+00:00".

End dt.

Definition _iso_time (timestamp : option time_value) : result (option string) :=
  match timestamp with
  | None => Return None
  | Some t => d <- dt.fromtimestamp t ;; Return (Some (dt.isoformat d))
  end.

(** ** The report *)

Module ProtocolItem.
(** [{"name": name, "count": count}] *)
Record item : Type := mk { name : string; count : Z }.
End ProtocolItem.

Module Summary.
(** The dictionary [summary]; [alerts] is [None] until the key is
    set. *)
Record t : Type := mk {
  capture_start : option string;
  capture_end : option string;
  packet_count : Z;
  total_bytes : Z;
  unique_hosts : Z;
  protocols : list ProtocolItem.item;
  top_talkers : list TopTalker.item;
  alerts : option (list string)
}.

(** [summary["alerts"] = v] *)
Definition set_alerts (s : t) (v : list string) : t :=
  mk (capture_start s) (capture_end s) (packet_count s) (total_bytes s)
     (unique_hosts s) (protocols s) (top_talkers s) (Some v).
End Summary.

Module Report.
(** [{"summary": summary, "flows": flow_items}] *)
Record t : Type := mk {
  summary : Summary.t;
  flows : list FlowItem.item
}.
End Report.

(** ** Alert rules *)

Definition large_capture_alert : string :=
  "Large capture: more than 100k packets.".
Definition dns_alert : string :=
  "High DNS volume relative to total traffic.".
Definition dominant_talker_alert : string :=
  "Single host dominates traffic volume.".

(** [if packet_count > 100_000: alerts.append(...)] *)
Definition large_capture_rule (packet_count : Z) (alerts : list string)
  : list string :=
  if packet_count >? 100000 then alerts ++ [large_capture_alert] else alerts.

(** [if packet_count and dns_count / packet_count > 0.35: ...]; [and]
    does not evaluate the division when [packet_count] is 0. *)
Definition dns_rule (packet_count dns_count : Z) (alerts : list string)
  : result (list string) :=
  if packet_count =? 0 then Return alerts
  else
    ratio <- int_truediv dns_count packet_count ;;
    Return (if float_gt ratio float_0_35 then alerts ++ [dns_alert] else alerts).

(** [if talkers: top = max(...); total = sum(...); if total and top /
    total > 0.6: ...] *)
Definition dominant_talker_rule (talkers : list (string * Z))
  (alerts : list string) : result (list string) :=
  match talkers with
  | [] => Return alerts
  | _ :: _ =>
    top <- max (values talkers) ;;
    let total := sum (values talkers) in
    if total =? 0 then Return alerts
    else
      ratio <- int_truediv top total ;;
      Return (if float_gt ratio float_0_6
              then alerts ++ [dominant_talker_alert] else alerts)
  end.

Definition _alert_rules (summary : Summary.t)
  (protocol_counts talkers : list (string * Z)) : result (list string) :=
  let alerts := [] in
  let packet_count := Summary.packet_count summary in
  let alerts := large_capture_rule packet_count alerts in
  let dns_count := get_or String.eqb protocol_counts "DNS" 0 in
  alerts <- dns_rule packet_count dns_count alerts ;;
  alerts <- dominant_talker_rule talkers alerts ;;
  Return alerts.

(** None of the three rules is triggered: the packet count is not above
    100000; there is no packet, or the DNS ratio is computed and is not
    above [0.35]; there is no talker, or the talker totals add up to 0, or
    the ratio of the largest to their sum is computed and is not above
    [0.6]. *)
Definition no_rule_triggers (summary : Summary.t)
  (protocol_counts talkers : list (string * Z)) : Prop :=
  let packet_count := Summary.packet_count summary in
  let dns_count := get_or String.eqb protocol_counts "DNS" 0 in
  packet_count <= 100000
  /\ (packet_count = 0
      \/ exists ratio, int_truediv dns_count packet_count = Return ratio
                       /\ float_gt ratio float_0_35 = false)
  /\ (talkers = []
      \/ sum (values talkers) = 0
      \/ exists top ratio,
           max (values talkers) = Return top
           /\ int_truediv top (sum (values talkers)) = Return ratio
           /\ float_gt ratio float_0_6 = false).

(** The summary of a capture of [n] packets with nothing else in it. *)
Definition summary_of_count (n : Z) : Summary.t :=
  Summary.mk None None n 0 0 [] [] None.

(** ** The request handler *)

(** [protocol_counts.most_common()]: the items by descending count, equal
    counts in insertion order. *)
Definition most_common (c : list (string * Z)) : list (string * Z) :=
  sorted_desc (fun item => snd item) c.

Definition protocol_item (item : string * Z) : ProtocolItem.item :=
  let '(name, count) := item in ProtocolItem.mk name count.

(** [_iso_time(packets[i].time) if packet_count else None] *)
Definition capture_bound (packets : list packet) (i : Z)
  : result (option string) :=
  if packet_count_of packets =? 0 then Return None
  else pkt <- getitem packets i ;; _iso_time (time pkt).

Definition capture_start_of (packets : list packet) : result (option string) :=
  capture_bound packets 0.

Definition capture_end_of (packets : list packet) : result (option string) :=
  capture_bound packets (-1).

(** The body of [parse_pcap] once the packets are decoded. *)
Definition build_report (packets : list packet) : result Report.t :=
  let packet_count := packet_count_of packets in
  let total_bytes := total_bytes_of packets in
  capture_start <- capture_start_of packets ;;
  capture_end <- capture_end_of packets ;;
  let st := aggregate packets in
  let top_talkers := top_talkers_of (talkers st) in
  let flow_items := flow_items_of (flows st) in
  let summary :=
    Summary.mk capture_start capture_end packet_count total_bytes
      (Z.of_nat (List.length (unique_hosts st)))
      (map protocol_item (most_common (protocol_counts st)))
      top_talkers None in
  alerts <- _alert_rules summary (protocol_counts st) (talkers st) ;;
  Return (Report.mk (Summary.set_alerts summary alerts) flow_items).

Section Handler.
(** The decoder: the packets of a capture file in file order, or the
    exception it raises on a file it cannot read. *)
Variable rdpcap : list Byte.byte -> result (list packet).

(** The upload is written to a temporary file, decoded from it, and no
    exception is caught on the way. *)
Definition parse_pcap (content : list Byte.byte) : result Report.t :=
  packets <- rdpcap content ;;
  build_report packets.
End Handler.

(** The report of a capture without packets. *)
Definition empty_report : Report.t :=
  Report.mk (Summary.mk None None 0 0 0 [] [] (Some [])) [].

(** A packet with time [t] and no layer the classifier knows. *)
Definition bare_packet (t : time_value) : packet :=
  mkPacket (Some t) 60 None None false false false false.

(** A decoder that reads every file as a capture without packets,
    except the empty file, which it cannot read. *)
Definition sample_rdpcap (content : list Byte.byte) : result (list packet) :=
  match content with
  | [] => Raise (Scapy_Exception "No data could be read!")
  | _ :: _ => Return []
  end.

(** ** Sample captures *)

(** The time of a packet stamped 1.5 s in the capture file, as [rdpcap]
    stores it, and the floats [1.5] and [1.0000001]. *)
Definition decimal_1_5 : time_value := EDecimal (mkDecimal 15 (-1)).
Definition float_1_5 : time_value :=
  Float (S754_finite false 6755399441055744 (-52)).
Definition float_1_0000001 : time_value :=
  Float (S754_finite false 4503600077730459 (-52)).

Definition tcp_packet (t : time_value) (n : N) (s d : string) : packet :=
  mkPacket (Some t) n (Some (mkAddrs s d)) None true false false false.

(** Three TCP packets over IPv4: A to B with 100 and 50 bytes, B to A
    with 20 bytes. *)
Definition three_packets : list packet :=
  [tcp_packet (seconds 1) 100 "10.0.0.1" "10.0.0.2";
   tcp_packet (seconds 2) 50 "10.0.0.1" "10.0.0.2";
   tcp_packet (seconds 3) 20 "10.0.0.2" "10.0.0.1"].

(** ** Closed forms of the counters *)

(** The packet carries the tag. *)
Definition carries (tag : string) (pkt : packet) : bool :=
  existsb (String.eqb tag) (_protocol_tags pkt).

(** The packet is attributed to host [h] as its source. *)
Definition sent_by (h : string) (pkt : packet) : bool :=
  is_host (src_of pkt) h.

(** The packet belongs to the flow [k]. *)
Definition in_flow (k : flow_key) (pkt : packet) : bool :=
  flow_key_eqb k (packet_flow_key pkt).

(** Number and total length of the packets that pass a test. *)
Definition count_where (f : packet -> bool) (pkts : list packet) : Z :=
  Z.of_nat (List.length (filter f pkts)).

Definition bytes_where (f : packet -> bool) (pkts : list packet) : Z :=
  sum (map len (filter f pkts)).

(** * Theorems *)

(** ** Dictionaries and sets *)

Section DictFacts.
Context {K V : Type}.
Variable eqb : K -> K -> bool.
Hypothesis eqb_eq : forall a b, eqb a b = true <-> a = b.

Lemma eqb_refl_k (a : K) : eqb a a = true.
Proof. now apply eqb_eq. Qed.

Lemma eqb_neq_k (a b : K) : eqb a b = false <-> a <> b.
Proof.
  split.
  - intros H E. apply eqb_eq in E. congruence.
  - intros H. destruct (eqb a b) eqn:E; [apply eqb_eq in E; contradiction | reflexivity].
Qed.

Lemma eqb_sym_k (a b : K) : eqb a b = eqb b a.
Proof.
  destruct (eqb b a) eqn:E.
  - apply eqb_eq in E. subst. apply eqb_refl_k.
  - apply eqb_neq_k. apply eqb_neq_k in E. congruence.
Qed.

Lemma get_update (d : list (K * V)) (k k' : K) (dflt : V) (f : V -> V) :
  get eqb (update eqb d k dflt f) k' =
  if eqb k' k then Some (f (get_or eqb d k dflt)) else get eqb d k'.
Proof.
  unfold get_or. induction d as [|[k0 v0] d IH]; cbn.
  - rewrite (eqb_sym_k k' k). reflexivity.
  - destruct (eqb k k0) eqn:E; cbn.
    + apply eqb_eq in E. subst k0. destruct (eqb k' k); reflexivity.
    + destruct (eqb k' k0) eqn:E'.
      * apply eqb_eq in E'. subst k0. rewrite (eqb_sym_k k' k), E. reflexivity.
      * exact IH.
Qed.

Lemma get_or_update (d : list (K * V)) (k k' : K) (dflt : V) (f : V -> V) :
  get_or eqb (update eqb d k dflt f) k' dflt =
  if eqb k' k then f (get_or eqb d k dflt) else get_or eqb d k' dflt.
Proof.
  unfold get_or at 1. rewrite get_update. destruct (eqb k' k); reflexivity.
Qed.

Lemma get_Some_In (d : list (K * V)) (k : K) :
  get eqb d k <> None <-> In k (keys d).
Proof.
  induction d as [|[k0 v0] d IH]; cbn.
  - tauto.
  - destruct (eqb k k0) eqn:E.
    + apply eqb_eq in E. subst. split; [now left | discriminate].
    + apply eqb_neq_k in E. rewrite IH. split; [tauto | intros [H|H]; [symmetry in H; contradiction | exact H]].
Qed.

(** A key already present keeps its place, a new key goes last. *)
Lemma keys_update (d : list (K * V)) (k : K) (dflt : V) (f : V -> V) :
  keys (update eqb d k dflt f) =
  match get eqb d k with Some _ => keys d | None => keys d ++ [k] end.
Proof.
  induction d as [|[k0 v0] d IH]; cbn.
  - reflexivity.
  - destruct (eqb k k0) eqn:E; cbn.
    + reflexivity.
    + fold (keys (update eqb d k dflt f)). rewrite IH.
      destruct (get eqb d k); reflexivity.
Qed.

Lemma In_keys_update (d : list (K * V)) (k k' : K) (dflt : V) (f : V -> V) :
  In k' (keys (update eqb d k dflt f)) <-> In k' (keys d) \/ k' = k.
Proof.
  rewrite keys_update. destruct (get eqb d k) eqn:G.
  - split; [tauto|]. intros [H|H]; [exact H|]. subst.
    apply get_Some_In. congruence.
  - rewrite in_app_iff. cbn. intuition congruence.
Qed.

Lemma NoDup_keys_update (d : list (K * V)) (k : K) (dflt : V) (f : V -> V) :
  NoDup (keys d) -> NoDup (keys (update eqb d k dflt f)).
Proof.
  intros H. rewrite keys_update. destruct (get eqb d k) eqn:G; [exact H|].
  apply NoDup_app; [exact H | repeat constructor; intros [] | ].
  intros x Hx [E|[]]. subst. apply get_Some_In in Hx. congruence.
Qed.
End DictFacts.

Lemma flow_key_eqb_eq (a b : flow_key) : flow_key_eqb a b = true <-> a = b.
Proof.
  destruct a as [[s1 d1] p1], b as [[s2 d2] p2]. unfold flow_key_eqb.
  rewrite !andb_true_iff, !String.eqb_eq. split.
  - intros [[-> ->] ->]. reflexivity.
  - intros E. inversion E. auto.
Qed.

Lemma set_add_In (x y : string) (s : list string) :
  In y (set_add x s) <-> In y s \/ y = x.
Proof.
  induction s as [|z s IH]; cbn.
  - intuition congruence.
  - destruct (String.eqb x z) eqn:E; cbn.
    + apply String.eqb_eq in E. subst. intuition congruence.
    + rewrite IH. tauto.
Qed.

Lemma set_add_NoDup (x : string) (s : list string) :
  NoDup s -> NoDup (set_add x s).
Proof.
  induction s as [|z s IH]; cbn; intros H.
  - repeat constructor. intros [].
  - destruct (String.eqb x z) eqn:E; [exact H|].
    inversion H; subst. constructor; [|auto].
    rewrite set_add_In. apply String.eqb_neq in E. intuition congruence.
Qed.

(** ** Sums *)

Lemma fold_add_shift (l : list Z) (a : Z) :
  fold_left Z.add l a = a + fold_left Z.add l 0.
Proof.
  revert a. induction l as [|x l IH]; intros a; cbn.
  - lia.
  - rewrite IH, (IH x). lia.
Qed.

Lemma sum_cons (x : Z) (l : list Z) : sum (x :: l) = x + sum l.
Proof. unfold sum. cbn. apply fold_add_shift. Qed.

Lemma sum_app (l1 l2 : list Z) : sum (l1 ++ l2) = sum l1 + sum l2.
Proof.
  induction l1 as [|x l1 IH].
  - reflexivity.
  - rewrite <- app_comm_cons, !sum_cons, IH. lia.
Qed.

(** C2: every packet gets a non-empty tag list; the list is ["Other"]
    exactly when none of TCP, UDP, ICMP, DNS, IPv6, IPv4 is present, and
    otherwise it is the present layers in that fixed order. *)
Theorem protocol_tags_spec (pkt : packet) :
  _protocol_tags pkt <> []
  /\ (_protocol_tags pkt = ["Other"] <->
      tcp pkt = false /\ udp pkt = false /\ icmp pkt = false
      /\ dns pkt = false /\ ipv6 pkt = None /\ ip pkt = None)
  /\ (present_layers pkt = [] \/ _protocol_tags pkt = present_layers pkt).
Proof.
  destruct pkt as [t n i4 i6 b1 b2 b3 b4].
  unfold _protocol_tags, present_layers, layer_tests; cbn [tcp udp icmp dns ip ipv6].
  destruct b1, b2, b3, b4, i6, i4; cbn;
    (split; [discriminate | split; [split; intro; intuition discriminate | ]]);
    ((left; reflexivity) || (right; reflexivity)).
Qed.

(** C5: the endpoint pair is the IPv4 pair when an IPv4 layer is present
    (whether or not an IPv6 layer is present too), else the IPv6 pair
    when an IPv6 layer is present, else both endpoints are absent. *)
Theorem packet_src_dst_precedence
  (t : option time_value) (n : N) (a4 a6 : addrs) (o6 : option addrs)
  (b1 b2 b3 b4 : bool) :
  _packet_src_dst (mkPacket t n (Some a4) o6 b1 b2 b3 b4)
    = (Some (src a4), Some (dst a4))
  /\ _packet_src_dst (mkPacket t n (Some a4) (Some a6) b1 b2 b3 b4)
    = (Some (src a4), Some (dst a4))
  /\ _packet_src_dst (mkPacket t n None (Some a6) b1 b2 b3 b4)
    = (Some (src a6), Some (dst a6))
  /\ _packet_src_dst (mkPacket t n None None b1 b2 b3 b4) = (None, None).
Proof. repeat split. Qed.

(** ** The aggregation pass *)

Lemma aggregate_snoc (pkts : list packet) (p : packet) :
  aggregate (pkts ++ [p]) = loop_body (aggregate pkts) p.
Proof. unfold aggregate. rewrite fold_left_app. reflexivity. Qed.

Lemma protocol_tags_NoDup (pkt : packet) : NoDup (_protocol_tags pkt).
Proof.
  destruct pkt as [t n i4 i6 b1 b2 b3 b4]. unfold _protocol_tags.
  cbn [tcp udp icmp dns ip ipv6].
  destruct b1, b2, b3, b4, i6, i4; cbn;
    repeat (constructor; [cbn; intuition discriminate|]); constructor.
Qed.

Lemma counts_fold (tags : list string) (c : list (string * Z)) (t : string) :
  get_or String.eqb
    (fold_left (fun c tag => update String.eqb c tag 0 (fun n => n + 1)) tags c)
    t 0
  = get_or String.eqb c t 0 + Z.of_nat (count_occ string_dec tags t).
Proof.
  revert c. induction tags as [|x tags IH]; intros c; cbn [fold_left count_occ].
  - lia.
  - rewrite IH, (get_or_update String.eqb String.eqb_eq).
    destruct (string_dec x t) as [->|N].
    + rewrite String.eqb_refl. lia.
    + destruct (String.eqb t x) eqn:E; [apply String.eqb_eq in E; congruence | lia].
Qed.

Lemma count_occ_NoDup (l : list string) (t : string) :
  NoDup l ->
  Z.of_nat (count_occ string_dec l t) = if in_dec string_dec t l then 1 else 0.
Proof.
  intros H. destruct (in_dec string_dec t l) as [I|I].
  - apply (count_occ_In string_dec) in I.
    apply (proj1 (NoDup_count_occ string_dec l)) with (x := t) in H. lia.
  - apply (count_occ_not_In string_dec) in I. rewrite I. reflexivity.
Qed.

Lemma packet_flow_key_eq (p : packet) :
  packet_flow_key p =
  (or_str (fst (_packet_src_dst p)) "unknown",
   or_str (snd (_packet_src_dst p)) "unknown", transport_label p).
Proof. unfold packet_flow_key. destruct (_packet_src_dst p); reflexivity. Qed.

Lemma loop_body_flows (st : agg) (p : packet) :
  flows (loop_body st p) =
  update flow_key_eqb
    (update flow_key_eqb (flows st) (packet_flow_key p) zero_stats
       (fun fs => mkStats (packets fs + 1) (bytes fs)))
    (packet_flow_key p) zero_stats
    (fun fs => mkStats (packets fs) (bytes fs + len p)).
Proof.
  unfold loop_body. rewrite packet_flow_key_eq.
  destruct (_packet_src_dst p) as [s d]. cbn [fst snd].
  destruct (truthy s); reflexivity.
Qed.

Lemma loop_body_counts (st : agg) (p : packet) :
  protocol_counts (loop_body st p) =
  fold_left (fun c tag => update String.eqb c tag 0 (fun n => n + 1))
            (_protocol_tags p) (protocol_counts st).
Proof.
  unfold loop_body. destruct (_packet_src_dst p) as [s d].
  destruct (truthy s); reflexivity.
Qed.

Lemma loop_body_talkers (st : agg) (p : packet) :
  talkers (loop_body st p) =
  match src_of p with
  | Some h => update String.eqb (talkers st) h 0 (fun n => n + len p)
  | None => talkers st
  end.
Proof.
  unfold loop_body, src_of. destruct (_packet_src_dst p) as [s d]. cbn [fst].
  destruct (truthy s); reflexivity.
Qed.

Lemma loop_body_hosts (st : agg) (p : packet) :
  unique_hosts (loop_body st p) =
  let hosts :=
    match src_of p with Some h => set_add h (unique_hosts st) | None => unique_hosts st end in
  match dst_of p with Some h => set_add h hosts | None => hosts end.
Proof.
  unfold loop_body, src_of, dst_of. destruct (_packet_src_dst p) as [s d].
  cbn [fst snd]. destruct (truthy s); reflexivity.
Qed.

(** C1: what one more packet changes.  With [st] the state after [pkts]
    and [st'] the state after [pkts ++ [p]]: the packet counter grows by
    1 and the byte counter by [len p]; the count of a tag grows by 1
    exactly when the tag is one of the packet's tags; a host's talker
    total grows by [len p] exactly when it is the packet's source, and
    only a source gets a talker entry; the hosts seen are the old ones
    plus the packet's source and destination; the flow entry of the
    packet's key, read as zero when missing, gains one packet and
    [len p] bytes and exists afterwards, every other entry is unchanged. *)
Theorem aggregation_step (pkts : list packet) (p : packet) :
  let st := aggregate pkts in
  let st' := aggregate (pkts ++ [p]) in
  packet_count_of (pkts ++ [p]) = packet_count_of pkts + 1
  /\ total_bytes_of (pkts ++ [p]) = total_bytes_of pkts + len p
  /\ (forall tag,
        get_or String.eqb (protocol_counts st') tag 0 =
        get_or String.eqb (protocol_counts st) tag 0
        + (if in_dec string_dec tag (_protocol_tags p) then 1 else 0))
  /\ (forall h,
        get_or String.eqb (talkers st') h 0 =
        get_or String.eqb (talkers st) h 0
        + (if is_host (src_of p) h then len p else 0))
  /\ (forall h,
        In h (keys (talkers st')) <->
        In h (keys (talkers st)) \/ src_of p = Some h)
  /\ (forall h,
        In h (unique_hosts st') <->
        In h (unique_hosts st) \/ src_of p = Some h \/ dst_of p = Some h)
  /\ (forall k,
        get_or flow_key_eqb (flows st') k zero_stats =
        if flow_key_eqb k (packet_flow_key p)
        then mkStats (packets (get_or flow_key_eqb (flows st) k zero_stats) + 1)
                     (bytes (get_or flow_key_eqb (flows st) k zero_stats) + len p)
        else get_or flow_key_eqb (flows st) k zero_stats)
  /\ In (packet_flow_key p) (keys (flows st')).
Proof.
  intros st st'. subst st'. rewrite aggregate_snoc. fold st.
  repeat split.
  - unfold packet_count_of. rewrite length_app. cbn. lia.
  - unfold total_bytes_of. rewrite map_app, sum_app. cbn. unfold sum. cbn. lia.
  - intros tag. rewrite loop_body_counts, counts_fold.
    rewrite (count_occ_NoDup _ _ (protocol_tags_NoDup p)). reflexivity.
  - intros h. rewrite loop_body_talkers. destruct (src_of p) as [s|]; cbn [is_host].
    + rewrite (get_or_update String.eqb String.eqb_eq).
      destruct (String.eqb h s) eqn:E; [|lia].
      apply String.eqb_eq in E. subst. reflexivity.
    + lia.
  - rewrite loop_body_talkers. destruct (src_of p) as [s|].
    + rewrite (In_keys_update String.eqb String.eqb_eq). intuition congruence.
    + intuition discriminate.
  - rewrite loop_body_talkers. destruct (src_of p) as [s|].
    + rewrite (In_keys_update String.eqb String.eqb_eq). intuition congruence.
    + intuition discriminate.
  - rewrite loop_body_hosts. cbv zeta.
    destruct (src_of p) as [s|], (dst_of p) as [d|];
      rewrite ?set_add_In; intuition congruence.
  - rewrite loop_body_hosts. cbv zeta.
    destruct (src_of p) as [s|], (dst_of p) as [d|];
      rewrite ?set_add_In; intuition congruence.
  - intros k. rewrite loop_body_flows.
    rewrite !(get_or_update flow_key_eqb flow_key_eqb_eq).
    destruct (flow_key_eqb k (packet_flow_key p)) eqn:E.
    + apply flow_key_eqb_eq in E. subst k.
      rewrite (proj2 (flow_key_eqb_eq _ _) eq_refl). reflexivity.
    + reflexivity.
  - rewrite loop_body_flows.
    rewrite !(In_keys_update flow_key_eqb flow_key_eqb_eq). auto.
Qed.

(** ** Conservation over the flow table *)

Section SumUpdate.
Context {K V : Type}.
Variable eqb : K -> K -> bool.
Variable g : V -> Z.

(** Updating one entry moves the sum of [g] by the change of that entry;
    a missing entry counts as the default, which weighs nothing. *)
Lemma sum_update (d : list (K * V)) (k : K) (dflt : V) (f : V -> V) :
  g dflt = 0 ->
  sum (map g (values (update eqb d k dflt f))) =
  sum (map g (values d)) + g (f (get_or eqb d k dflt)) - g (get_or eqb d k dflt).
Proof.
  intros Hd. unfold get_or, values.
  induction d as [|[k0 v0] d IH]; cbn [update get map snd].
  - rewrite sum_cons. unfold sum at 1 2. cbn. lia.
  - destruct (eqb k k0); cbn [map snd].
    + rewrite !sum_cons. lia.
    + rewrite !sum_cons, IH. lia.
Qed.
End SumUpdate.

Lemma aggregate_flows_NoDup (pkts : list packet) :
  NoDup (keys (flows (aggregate pkts))).
Proof.
  induction pkts as [|p pkts IH] using rev_ind.
  - constructor.
  - rewrite aggregate_snoc, loop_body_flows.
    now do 2 apply (NoDup_keys_update flow_key_eqb flow_key_eqb_eq).
Qed.

(** C9: after the pass the packet counts of the flow entries add up to
    [packet_count] and their byte counts to [total_bytes]; every flow key
    has one entry, so no packet is counted twice. *)
Theorem flow_conservation (pkts : list packet) :
  sum (map packets (values (flows (aggregate pkts)))) = packet_count_of pkts
  /\ sum (map bytes (values (flows (aggregate pkts)))) = total_bytes_of pkts
  /\ NoDup (keys (flows (aggregate pkts))).
Proof.
  split; [|split; [|apply aggregate_flows_NoDup]].
  - induction pkts as [|p pkts IH] using rev_ind.
    + reflexivity.
    + rewrite aggregate_snoc, loop_body_flows.
      rewrite !(sum_update flow_key_eqb packets) by reflexivity.
      rewrite !(get_or_update flow_key_eqb flow_key_eqb_eq).
      rewrite (proj2 (flow_key_eqb_eq _ _) eq_refl). cbn [packets].
      rewrite IH. unfold packet_count_of. rewrite length_app. cbn. lia.
  - induction pkts as [|p pkts IH] using rev_ind.
    + reflexivity.
    + rewrite aggregate_snoc, loop_body_flows.
      rewrite !(sum_update flow_key_eqb bytes) by reflexivity.
      rewrite !(get_or_update flow_key_eqb flow_key_eqb_eq).
      rewrite (proj2 (flow_key_eqb_eq _ _) eq_refl). cbn [bytes].
      rewrite IH. unfold total_bytes_of. rewrite map_app, sum_app.
      unfold sum at 3. cbn. lia.
Qed.

(** ** Sorting and ranking *)

Section SortedFacts.
Context {A : Type}.
Variable key : A -> Z.

Lemma insert_desc_perm (x : A) (l : list A) :
  Permutation (insert_desc key x l) (x :: l).
Proof.
  induction l as [|y l IH]; cbn.
  - apply Permutation_refl.
  - destruct (key x <? key y).
    + apply perm_trans with (y :: x :: l); [now apply perm_skip | apply perm_swap].
    + apply Permutation_refl.
Qed.

Lemma sorted_desc_perm (l : list A) : Permutation (sorted_desc key l) l.
Proof.
  induction l as [|x l IH]; cbn.
  - constructor.
  - apply perm_trans with (x :: sorted_desc key l);
      [apply insert_desc_perm | now apply perm_skip].
Qed.

Lemma sorted_desc_length (l : list A) :
  List.length (sorted_desc key l) = List.length l.
Proof. apply Permutation_length, sorted_desc_perm. Qed.

Lemma insert_desc_sorted (x : A) (l : list A) :
  StronglySorted (desc key) l -> StronglySorted (desc key) (insert_desc key x l).
Proof.
  induction l as [|y l IH]; cbn; intros H.
  - repeat constructor.
  - inversion H as [|? ? Hs Hf]; subst.
    destruct (key x <? key y) eqn:E.
    + apply Z.ltb_lt in E. constructor; [auto|].
      apply (Permutation_Forall (Permutation_sym (insert_desc_perm x l))).
      constructor; [unfold desc; lia | exact Hf].
    + apply Z.ltb_ge in E. constructor; [exact H|].
      constructor; [exact E|].
      apply Forall_impl with (2 := Hf). unfold desc. intros; lia.
Qed.

Lemma sorted_desc_sorted (l : list A) : StronglySorted (desc key) (sorted_desc key l).
Proof.
  induction l as [|x l IH]; cbn.
  - constructor.
  - now apply insert_desc_sorted.
Qed.

(** Stability: the elements of any one key come out in input order. *)
Lemma insert_desc_stable (k : Z) (x : A) (l : list A) :
  filter (has_key key k) (insert_desc key x l) = filter (has_key key k) (x :: l).
Proof.
  induction l as [|y l IH]; cbn [insert_desc].
  - reflexivity.
  - destruct (key x <? key y) eqn:E; [|reflexivity].
    apply Z.ltb_lt in E. cbn [filter] in *. rewrite IH. unfold has_key.
    destruct (key x =? k) eqn:Ex, (key y =? k) eqn:Ey; try reflexivity.
    apply Z.eqb_eq in Ex, Ey. lia.
Qed.

Lemma sorted_desc_stable (k : Z) (l : list A) :
  filter (has_key key k) (sorted_desc key l) = filter (has_key key k) l.
Proof.
  induction l as [|x l IH]; cbn [sorted_desc fold_right].
  - reflexivity.
  - fold (sorted_desc key l). rewrite insert_desc_stable. cbn [filter].
    rewrite IH. reflexivity.
Qed.

Lemma sorted_app_inv (l1 l2 : list A) :
  StronglySorted (desc key) (l1 ++ l2) ->
  StronglySorted (desc key) l1
  /\ forall x y, In x l1 -> In y l2 -> key y <= key x.
Proof.
  induction l1 as [|a l1 IH]; cbn; intros H.
  - split; [constructor | intros x y []].
  - inversion H as [|? ? Hs Hf]; subst. destruct (IH Hs) as [S1 C]. split.
    + constructor; [exact S1|].
      rewrite Forall_app in Hf. apply Hf.
    + intros x y [<-|Hx] Hy; [|now apply C].
      rewrite Forall_forall in Hf. apply Hf. apply in_or_app. now right.
Qed.

(** What [sorted(l, key, reverse=True)[:n]] guarantees. *)
Lemma top_n_spec (n : nat) (l : list A) :
  let top := firstn n (sorted_desc key l) in
  StronglySorted (desc key) top
  /\ (List.length top <= n)%nat
  /\ incl top l
  /\ (forall k, exists rest,
        filter (has_key key k) l = filter (has_key key k) top ++ rest)
  /\ (forall x y, In x l -> ~ In x top -> In y top -> key x <= key y).
Proof.
  intros top. subst top.
  pose proof (sorted_desc_sorted l) as S.
  pose proof (sorted_desc_perm l) as P.
  rewrite <- (firstn_skipn n (sorted_desc key l)) in S.
  apply sorted_app_inv in S. destruct S as [S1 C].
  split; [exact S1|]. split; [apply firstn_le_length|]. split; [|split].
  - intros x Hx. apply (Permutation_in _ P).
    rewrite <- (firstn_skipn n). apply in_or_app. now left.
  - intros k. exists (filter (has_key key k) (skipn n (sorted_desc key l))).
    rewrite <- filter_app, firstn_skipn. symmetry. apply sorted_desc_stable.
  - intros x y Hx Hn Hy. apply C; [exact Hy|].
    apply (Permutation_in _ (Permutation_sym P)) in Hx.
    rewrite <- (firstn_skipn n) in Hx. apply in_app_or in Hx. tauto.
Qed.
End SortedFacts.

Lemma StronglySorted_map {A B : Type} (R : A -> A -> Prop) (Q : B -> B -> Prop)
  (f : A -> B) (l : list A) :
  (forall a b, R a b -> Q (f a) (f b)) ->
  StronglySorted R l -> StronglySorted Q (map f l).
Proof.
  intros HRQ. induction 1 as [|a l Hs IH Hf]; cbn; constructor; [exact IH|].
  rewrite Forall_map. apply Forall_impl with (2 := Hf). auto.
Qed.

Lemma filter_map_comm {A B : Type} (f : A -> B) (p : B -> bool) (l : list A) :
  filter p (map f l) = map f (filter (fun a => p (f a)) l).
Proof.
  induction l as [|a l IH]; cbn; [reflexivity|].
  destruct (p (f a)); cbn; now rewrite IH.
Qed.

(** ** Encounter order of the dictionary keys *)

Section FirstSeenFacts.
Context {K V : Type}.
Variable eqb : K -> K -> bool.

Lemma existsb_keys (d : list (K * V)) (k : K) :
  existsb (eqb k) (keys d) = isSome (get eqb d k).
Proof.
  induction d as [|[k0 v0] d IH]; cbn; [reflexivity|].
  destruct (eqb k k0); cbn; [reflexivity | exact IH].
Qed.

Lemma keys_update_note (d : list (K * V)) (k : K) (dflt : V) (f : V -> V) :
  keys (update eqb d k dflt f) = note eqb (keys d) k.
Proof.
  unfold note. rewrite existsb_keys.
  induction d as [|[k0 v0] d IH]; cbn; [reflexivity|].
  destruct (eqb k k0); cbn; [reflexivity|].
  fold (keys (update eqb d k dflt f)). rewrite IH.
  destruct (get eqb d k); reflexivity.
Qed.

Lemma note_idem (seen : list K) (k : K) :
  eqb k k = true -> note eqb (note eqb seen k) k = note eqb seen k.
Proof.
  intros R. unfold note at 2. destruct (existsb (eqb k) seen) eqn:E.
  - unfold note. now rewrite E.
  - unfold note. rewrite E, existsb_app. cbn. now rewrite R, orb_true_r.
Qed.
End FirstSeenFacts.

Lemma talkers_keys_first_seen (pkts : list packet) :
  keys (talkers (aggregate pkts)) = first_seen String.eqb (sources pkts).
Proof.
  unfold first_seen.
  induction pkts as [|p pkts IH] using rev_ind; [reflexivity|].
  rewrite aggregate_snoc, loop_body_talkers. unfold sources in *.
  rewrite flat_map_app, fold_left_app, <- IH. cbn [flat_map].
  destruct (src_of p) as [h|]; cbn; [apply keys_update_note | reflexivity].
Qed.

Lemma flows_keys_first_seen (pkts : list packet) :
  keys (flows (aggregate pkts)) = first_seen flow_key_eqb (map packet_flow_key pkts).
Proof.
  unfold first_seen.
  induction pkts as [|p pkts IH] using rev_ind; [reflexivity|].
  rewrite aggregate_snoc, loop_body_flows, map_app, fold_left_app, <- IH.
  cbn [map fold_left]. rewrite !keys_update_note.
  apply note_idem. apply flow_key_eqb_eq. reflexivity.
Qed.

Lemma top_12_ranked {A B : Type} (key : A -> Z) (f : A -> B) (bkey : B -> Z)
  (l : list A) :
  (forall a, bkey (f a) = key a) ->
  ranked key f bkey l (map f (firstn 12 (sorted_desc key l))).
Proof.
  intros Hk. destruct (top_n_spec key 12 l) as (S & L & I & T & C).
  unfold ranked. repeat split.
  - apply StronglySorted_map with (2 := S). unfold desc. intros a b.
    now rewrite !Hk.
  - now rewrite length_map.
  - now rewrite length_map, length_firstn, sorted_desc_length.
  - intros e He. apply in_map_iff in He. destruct He as (a & <- & Ha).
    exists a. split; [now apply I | reflexivity].
  - intros k. destruct (T k) as [rest E]. exists (map f rest).
    rewrite E, map_app, filter_map_comm. f_equal. f_equal.
    apply filter_ext. intros a. unfold has_key. now rewrite Hk.
  - intros a e Ha Hn He. apply in_map_iff in He. destruct He as (b & <- & Hb).
    rewrite Hk. apply C; [exact Ha | | exact Hb].
    intros Hin. apply Hn. now apply in_map.
Qed.

(** C3: the emitted top talkers and top flows are in descending order of
    byte total, hold the 12 largest entries (all of them when there are
    fewer than 12), keep entries of equal total in
    the order of the dictionary, which is the order in which hosts and
    flows are first met in the capture, and leave out no entry whose
    total exceeds one that is emitted. *)
Theorem rankings_spec (pkts : list packet) :
  let st := aggregate pkts in
  ranked (fun item => snd item) talker_item TopTalker.bytes
         (talkers st) (top_talkers_of (talkers st))
  /\ keys (talkers st) = first_seen String.eqb (sources pkts)
  /\ ranked (fun item => bytes (snd item)) flow_item FlowItem.bytes
         (flows st) (flow_items_of (flows st))
  /\ keys (flows st) = first_seen flow_key_eqb (map packet_flow_key pkts).
Proof.
  intros st. split; [|split; [|split]].
  - apply top_12_ranked. intros [h b]. reflexivity.
  - apply talkers_keys_first_seen.
  - apply top_12_ranked. intros [[[s d] p] fs]. reflexivity.
  - apply flows_keys_first_seen.
Qed.

(** ** Alert rules *)

Lemma dns_rule_result (pc d : Z) (alerts alerts' : list string) :
  dns_rule pc d alerts = Return alerts' ->
  alerts' = alerts \/ alerts' = alerts ++ [dns_alert].
Proof.
  unfold dns_rule. destruct (pc =? 0).
  - intros [= <-]. now left.
  - destruct (int_truediv d pc) as [r|e]; cbn [bind]; [|discriminate].
    destruct (float_gt r float_0_35); intros [= <-]; [right | left]; reflexivity.
Qed.

Lemma dominant_talker_rule_result (t : list (string * Z))
  (alerts alerts' : list string) :
  dominant_talker_rule t alerts = Return alerts' ->
  alerts' = alerts \/ alerts' = alerts ++ [dominant_talker_alert].
Proof.
  unfold dominant_talker_rule. destruct t as [|kv t].
  - intros [= <-]. now left.
  - destruct (max (values (kv :: t))) as [top|e]; cbn [bind]; [|discriminate].
    destruct (sum (values (kv :: t)) =? 0).
    + intros [= <-]. now left.
    + destruct (int_truediv top (sum (values (kv :: t)))) as [r|e]; cbn [bind];
        [|discriminate].
      destruct (float_gt r float_0_6); intros [= <-]; [right | left]; reflexivity.
Qed.

(** C6: the alert list holds "Large capture: more than 100k packets."
    exactly when [packet_count > 100000]. *)
Theorem large_capture_threshold (s : Summary.t) (c t : list (string * Z))
  (alerts : list string) (H : _alert_rules s c t = Return alerts) :
  In large_capture_alert alerts <-> 100000 < Summary.packet_count s.
Proof.
  unfold _alert_rules in H.
  destruct (dns_rule _ _ _) as [a1|e] eqn:E1; cbn [bind] in H; [|discriminate].
  destruct (dominant_talker_rule t a1) as [a2|e] eqn:E2; cbn [bind] in H;
    [|discriminate].
  injection H as <-.
  apply dns_rule_result in E1. apply dominant_talker_rule_result in E2.
  assert (In large_capture_alert a2 <->
          In large_capture_alert (large_capture_rule (Summary.packet_count s) [])) as ->.
  { destruct E1 as [-> | ->], E2 as [-> | ->]; rewrite ?in_app_iff; cbn;
      intuition discriminate. }
  unfold large_capture_rule.
  destruct (Summary.packet_count s >? 100000) eqn:G.
  - apply Z.gtb_lt in G. cbn. intuition.
  - rewrite Z.gtb_ltb, Z.ltb_ge in G. cbn. intuition lia.
Qed.

Lemma large_capture_threshold_witness :
  _alert_rules (summary_of_count 100001) [] [] = Return [large_capture_alert]
  /\ (In large_capture_alert [large_capture_alert] <->
      100000 < Summary.packet_count (summary_of_count 100001)).
Proof.
  split; [reflexivity|].
  apply (large_capture_threshold (summary_of_count 100001) [] []). reflexivity.
Defined.

(** The alert is absent at exactly 100000 packets and present at
    100001. *)
Example large_capture_boundary :
  _alert_rules (summary_of_count 100000) [] [] = Return []
  /\ _alert_rules (summary_of_count 100001) [] [] = Return [large_capture_alert].
Proof. split; reflexivity. Qed.

(** *** The evaluator never fails on an aggregated capture *)

Lemma int_truediv_returns (a b : Z) :
  b <> 0 -> Z.abs a <= Z.abs b -> exists r, int_truediv a b = Return r.
Proof.
  intros Hb Hab. unfold int_truediv.
  destruct (b =? 0) eqn:E; [apply Z.eqb_eq in E; contradiction|].
  assert (2 <= 2 ^ 1024 - 2 ^ 970) as HC by (vm_compute; discriminate).
  unfold quotient_overflows. generalize dependent (2 ^ 1024 - 2 ^ 970).
  intros C HC. destruct (C * Z.abs b <=? Z.abs a) eqn:O.
  - apply Z.leb_le in O. nia.
  - eauto.
Qed.

Lemma counts_bound (pkts : list packet) (tag : string) :
  0 <= get_or String.eqb (protocol_counts (aggregate pkts)) tag 0
    <= packet_count_of pkts.
Proof.
  induction pkts as [|p pkts IH] using rev_ind.
  - cbn. lia.
  - rewrite aggregate_snoc, loop_body_counts, counts_fold.
    rewrite (count_occ_NoDup _ _ (protocol_tags_NoDup p)).
    unfold packet_count_of in *. rewrite length_app. cbn [List.length].
    destruct (in_dec string_dec tag (_protocol_tags p)); lia.
Qed.

Lemma update_values_nonneg (d : list (string * Z)) (k : string) (n : Z) :
  0 <= n -> Forall (Z.le 0) (values d) ->
  Forall (Z.le 0) (values (update String.eqb d k 0 (fun v => v + n))).
Proof.
  intros Hn. unfold values. induction d as [|[k0 v0] d IH]; cbn; intros H.
  - constructor; [lia | constructor].
  - inversion H; subst. destruct (String.eqb k k0); cbn.
    + constructor; [lia | assumption].
    + constructor; [assumption | now apply IH].
Qed.

Lemma talkers_nonneg (pkts : list packet) :
  Forall (Z.le 0) (values (talkers (aggregate pkts))).
Proof.
  induction pkts as [|p pkts IH] using rev_ind.
  - constructor.
  - rewrite aggregate_snoc, loop_body_talkers. destruct (src_of p); [|exact IH].
    apply update_values_nonneg; [unfold len; lia | exact IH].
Qed.

Lemma fold_max_bound (l : list Z) (x : Z) :
  0 <= x -> Forall (Z.le 0) l ->
  0 <= fold_left Z.max l x <= x + sum l.
Proof.
  revert x. induction l as [|y l IH]; intros x Hx H; cbn [fold_left].
  - unfold sum. cbn. lia.
  - inversion H; subst. rewrite sum_cons.
    specialize (IH (Z.max x y) ltac:(lia) ltac:(assumption)). lia.
Qed.

Lemma dominant_talker_rule_returns (t : list (string * Z)) (alerts : list string) :
  Forall (Z.le 0) (values t) ->
  exists alerts', dominant_talker_rule t alerts = Return alerts'.
Proof.
  intros H. unfold dominant_talker_rule. destruct t as [|[k v] t]; [eauto|].
  cbn [values map snd max bind] in *. inversion H; subst.
  fold (values t) in *. rewrite sum_cons.
  pose proof (fold_max_bound (values t) v ltac:(assumption) ltac:(assumption)) as B.
  destruct (v + sum (values t) =? 0) eqn:E; [eauto|].
  apply Z.eqb_neq in E.
  destruct (int_truediv_returns (fold_left Z.max (values t) v) (v + sum (values t)))
    as [r ->]; [exact E | lia |].
  cbn [bind]. eauto.
Qed.

(** C7: on the state aggregated from any capture the evaluator returns
    an alert list: no division by zero, no other exception.  The DNS rule
    leaves the alerts unchanged, without dividing, when [packet_count] is
    0; the dominant-talker rule does so when there is no talker and when
    the talker totals add up to 0; with neither packets nor talker bytes
    the result is the empty list; and for any state the result is the
    empty list exactly when no rule is triggered. *)
Theorem alert_rules_total :
  (forall (pkts : list packet) cs ce tb uh pr tt al, exists alerts,
     _alert_rules
       (Summary.mk cs ce (packet_count_of pkts) tb uh pr tt al)
       (protocol_counts (aggregate pkts)) (talkers (aggregate pkts))
     = Return alerts)
  /\ (forall dns_count alerts, dns_rule 0 dns_count alerts = Return alerts)
  /\ (forall alerts, dominant_talker_rule [] alerts = Return alerts)
  /\ (forall t alerts, sum (values t) = 0 ->
        dominant_talker_rule t alerts = Return alerts)
  /\ (forall c t, t = [] \/ sum (values t) = 0 ->
        _alert_rules (summary_of_count 0) c t = Return [])
  /\ (forall s c t, no_rule_triggers s c t <-> _alert_rules s c t = Return []).
Proof.
  assert (Hsum0 : forall t alerts, sum (values t) = 0 ->
                    dominant_talker_rule t alerts = Return alerts).
  { intros t alerts H. unfold dominant_talker_rule. destruct t as [|kv t];
      [reflexivity|].
    change (max (values (kv :: t)))
      with (Return (A := Z) (fold_left Z.max (values t) (snd kv))).
    cbn [bind]. rewrite H. reflexivity. }
  split; [|split; [|split; [|split; [|split]]]].
  - intros pkts cs ce tb uh pr tt al. unfold _alert_rules. cbn [Summary.packet_count].
    assert (exists a1, dns_rule (packet_count_of pkts)
              (get_or String.eqb (protocol_counts (aggregate pkts)) "DNS" 0)
              (large_capture_rule (packet_count_of pkts) []) = Return a1) as [a1 ->].
    { unfold dns_rule. destruct (packet_count_of pkts =? 0) eqn:E; [eauto|].
      apply Z.eqb_neq in E. pose proof (counts_bound pkts "DNS") as B.
      destruct (int_truediv_returns
                  (get_or String.eqb (protocol_counts (aggregate pkts)) "DNS" 0)
                  (packet_count_of pkts)) as [r ->]; [exact E | lia |].
      cbn [bind]. eauto. }
    cbn [bind].
    destruct (dominant_talker_rule_returns (talkers (aggregate pkts)) a1
                (talkers_nonneg pkts)) as [a2 ->].
    cbn [bind]. eauto.
  - reflexivity.
  - reflexivity.
  - exact Hsum0.
  - intros c t [-> | H]; [reflexivity|].
    unfold _alert_rules. cbn [summary_of_count Summary.packet_count].
    cbn [large_capture_rule dns_rule Z.eqb Z.gtb Z.compare bind].
    rewrite (Hsum0 t [] H). reflexivity.
  - intros s c t. unfold no_rule_triggers, _alert_rules. cbv zeta.
    set (pc := Summary.packet_count s). set (d := get_or String.eqb c "DNS" 0).
    split.
    + intros (Hpc & Hdns & Htalk).
      assert (L : large_capture_rule pc [] = []).
      { unfold large_capture_rule. destruct (pc >? 100000) eqn:G; [|reflexivity].
        apply Z.gtb_lt in G. lia. }
      rewrite L.
      assert (D : dns_rule pc d [] = Return []).
      { unfold dns_rule. destruct (pc =? 0) eqn:E; [reflexivity|].
        apply Z.eqb_neq in E. destruct Hdns as [Hz | (r & Hr & Hg)]; [contradiction|].
        rewrite Hr. cbn [bind]. now rewrite Hg. }
      rewrite D. cbn [bind].
      assert (T : dominant_talker_rule t [] = Return []).
      { destruct Htalk as [-> | [Hz | (top & r & Hm & Hr & Hg)]];
          [reflexivity | now apply Hsum0 |].
        unfold dominant_talker_rule. destruct t as [|kv t]; [reflexivity|].
        rewrite Hm. cbn [bind]. destruct (sum (values (kv :: t)) =? 0);
          [reflexivity|].
        rewrite Hr. cbn [bind]. now rewrite Hg. }
      rewrite T. reflexivity.
    + intros H.
      destruct (dns_rule pc d (large_capture_rule pc [])) as [a1|e] eqn:E1;
        cbn [bind] in H; [|discriminate].
      destruct (dominant_talker_rule t a1) as [a2|e] eqn:E2; cbn [bind] in H;
        [|discriminate].
      injection H as ->.
      assert (A1 : a1 = []).
      { apply dominant_talker_rule_result in E2.
        destruct E2 as [<- | E2]; [reflexivity|].
        destruct a1; discriminate. }
      subst a1.
      assert (A0 : large_capture_rule pc [] = []).
      { apply dns_rule_result in E1. destruct E1 as [E1 | E1]; [now symmetry|].
        destruct (large_capture_rule pc []); discriminate. }
      rewrite A0 in E1. split; [|split].
      * unfold large_capture_rule in A0. destruct (pc >? 100000) eqn:G;
          [discriminate|]. rewrite Z.gtb_ltb, Z.ltb_ge in G. exact G.
      * unfold dns_rule in E1. destruct (pc =? 0) eqn:E;
          [left; now apply Z.eqb_eq|].
        right. destruct (int_truediv d pc) as [r|e]; cbn [bind] in E1;
          [|discriminate].
        exists r. split; [reflexivity|].
        destruct (float_gt r float_0_35); [discriminate | reflexivity].
      * unfold dominant_talker_rule in E2. destruct t as [|kv t]; [now left|].
        right. destruct (max (values (kv :: t))) as [top|e]; cbn [bind] in E2;
          [|discriminate].
        destruct (sum (values (kv :: t)) =? 0) eqn:Z0;
          [left; now apply Z.eqb_eq|].
        right. destruct (int_truediv top (sum (values (kv :: t)))) as [r|e] eqn:Hr;
          cbn [bind] in E2; [|discriminate].
        exists top, r. split; [reflexivity|]. split; [exact Hr|].
        destruct (float_gt r float_0_6); [discriminate | reflexivity].
Qed.

Lemma alert_rules_total_witness :
  sum (values [("10.0.0.1", 0)]) = 0
  /\ dominant_talker_rule [("10.0.0.1", 0)] [] = Return []
  /\ _alert_rules (summary_of_count 0) [] [("10.0.0.1", 0)] = Return []
  /\ no_rule_triggers (summary_of_count 3) [("TCP", 3)]
       [("10.0.0.1", 1); ("10.0.0.2", 1); ("10.0.0.3", 1)]
  /\ _alert_rules (summary_of_count 3) [("TCP", 3)]
       [("10.0.0.1", 1); ("10.0.0.2", 1); ("10.0.0.3", 1)] = Return [].
Proof.
  assert (N : no_rule_triggers (summary_of_count 3) [("TCP", 3)]
                [("10.0.0.1", 1); ("10.0.0.2", 1); ("10.0.0.3", 1)]).
  { split; [cbn; lia|]. split.
    - right. eexists. split; reflexivity.
    - right. right. eexists. eexists. split; [reflexivity|]. split; reflexivity. }
  split; [reflexivity|]. split; [|split; [|split; [exact N|]]].
  - apply (proj1 (proj2 (proj2 (proj2 alert_rules_total)))). reflexivity.
  - apply (proj1 (proj2 (proj2 (proj2 (proj2 alert_rules_total))))).
    right. reflexivity.
  - apply (proj1 (proj2 (proj2 (proj2 (proj2 (proj2 alert_rules_total)))) _ _ _)).
    exact N.
Defined.

(** ** Capture bounds *)

Lemma getitem_first {A : Type} (a : A) (l : list A) :
  getitem (a :: l) 0 = Return a.
Proof.
  unfold getitem. cbn [Z.ltb Z.compare orb].
  destruct (Z.of_nat (List.length (a :: l)) <=? 0) eqn:E; [|reflexivity].
  apply Z.leb_le in E. cbn [List.length] in E. lia.
Qed.

Lemma getitem_last {A : Type} (l : list A) (a : A) :
  getitem (l ++ [a]) (-1) = Return a.
Proof.
  unfold getitem. rewrite length_app. cbn [List.length Z.ltb Z.compare].
  replace (-1 + Z.of_nat (List.length l + 1)) with (Z.of_nat (List.length l)) by lia.
  destruct (Z.of_nat (List.length l) <? 0) eqn:E1; [apply Z.ltb_lt in E1; lia|].
  destruct (Z.of_nat (List.length l + 1) <=? Z.of_nat (List.length l)) eqn:E2;
    [apply Z.leb_le in E2; lia|].
  cbn [orb]. rewrite Nat2Z.id, nth_error_app2, Nat.sub_diag by lia. reflexivity.
Qed.

Lemma capture_start_first (p : packet) (rest : list packet) :
  capture_start_of (p :: rest) = _iso_time (time p).
Proof.
  unfold capture_start_of, capture_bound, packet_count_of.
  destruct (Z.of_nat (List.length (p :: rest)) =? 0) eqn:E.
  - apply Z.eqb_eq in E. cbn [List.length] in E. lia.
  - rewrite getitem_first. reflexivity.
Qed.

Lemma capture_end_last (rest : list packet) (q : packet) :
  capture_end_of (rest ++ [q]) = _iso_time (time q).
Proof.
  unfold capture_end_of, capture_bound, packet_count_of.
  destruct (Z.of_nat (List.length (rest ++ [q])) =? 0) eqn:E.
  - apply Z.eqb_eq in E. rewrite length_app in E. cbn [List.length] in E. lia.
  - rewrite getitem_last. reflexivity.
Qed.

(** C4: the capture bounds are absent for an empty capture and are
    otherwise the rendered times of the first and of the last packet of
    the sequence; on a capture whose later packet carries the earlier
    time the start is the larger timestamp and the end the smaller one. *)
Theorem capture_bounds_positional :
  capture_start_of [] = Return None
  /\ capture_end_of [] = Return None
  /\ (forall p rest, capture_start_of (p :: rest) = _iso_time (time p))
  /\ (forall rest q, capture_end_of (rest ++ [q]) = _iso_time (time q))
  /\ capture_start_of [bare_packet (seconds 2); bare_packet (seconds 3);
                       bare_packet (seconds 1)]
     = Return (Some "1970-01-01T00:00:02+00:00")
  /\ capture_end_of [bare_packet (seconds 2); bare_packet (seconds 3);
                     bare_packet (seconds 1)]
     = Return (Some "1970-01-01T00:00:01+00:00").
Proof.
  split; [reflexivity|]. split; [reflexivity|].
  split; [exact capture_start_first|]. split; [exact capture_end_last|].
  split; vm_compute; reflexivity.
Qed.

(** ** Decode failures *)

(** C8: when the decoder raises on the uploaded bytes, the handler ends
    with that same exception and returns no report; a capture that
    decodes to no packet gives the empty report, a different outcome. *)
Theorem decode_failure_surfaces
  (rdpcap : list Byte.byte -> result (list packet))
  (bad : list Byte.byte) (e : exn) (H : rdpcap bad = Raise e) :
  parse_pcap rdpcap bad = Raise e
  /\ (forall r, parse_pcap rdpcap bad <> Return r)
  /\ (forall good, rdpcap good = Return [] ->
        parse_pcap rdpcap good = Return empty_report
        /\ parse_pcap rdpcap good <> parse_pcap rdpcap bad).
Proof.
  assert (E : parse_pcap rdpcap bad = Raise e).
  { unfold parse_pcap. rewrite H. reflexivity. }
  split; [exact E|]. split.
  - intros r. rewrite E. discriminate.
  - intros good G.
    assert (E' : parse_pcap rdpcap good = Return empty_report).
    { unfold parse_pcap. rewrite G. reflexivity. }
    split; [exact E'|]. rewrite E, E'. discriminate.
Qed.

Lemma decode_failure_surfaces_witness :
  sample_rdpcap [] = Raise (Scapy_Exception "No data could be read!")
  /\ parse_pcap sample_rdpcap [] = Raise (Scapy_Exception "No data could be read!")
  /\ (forall r, parse_pcap sample_rdpcap [] <> Return r)
  /\ (forall good, sample_rdpcap good = Return [] ->
        parse_pcap sample_rdpcap good = Return empty_report
        /\ parse_pcap sample_rdpcap good <> parse_pcap sample_rdpcap []).
Proof.
  split; [reflexivity|].
  apply (decode_failure_surfaces sample_rdpcap [] _ eq_refl).
Defined.

(** ** Rendering the capture bounds *)

Lemma capture_start_decimal (d : decimal) (n : N) (i4 i6 : option addrs)
  (b1 b2 b3 b4 : bool) (rest : list packet) :
  capture_start_of (mkPacket (Some (EDecimal d)) n i4 i6 b1 b2 b3 b4 :: rest)
  = Raise TypeError.
Proof. rewrite capture_start_first. reflexivity. Qed.

(** C10: the report does not render the capture bounds of a decoded
    capture.  [rdpcap] stores an [EDecimal] in [pkt.time], and
    [fromtimestamp] takes floats and integers only: on such a time
    [_iso_time] raises [TypeError], and so does the handler body on every
    capture whose first packet has one, whatever else the capture holds.
    On the float that [_iso_time] declares for its argument the same
    instant is rendered as an ISO 8601 string in UTC, and an empty capture
    gives null bounds. *)
Theorem iso_time_decimal_type_error (d : decimal) (n : N)
  (i4 i6 : option addrs) (b1 b2 b3 b4 : bool) (rest : list packet) :
  _iso_time (Some (EDecimal d)) = Raise TypeError
  /\ build_report (mkPacket (Some (EDecimal d)) n i4 i6 b1 b2 b3 b4 :: rest)
     = Raise TypeError
  /\ build_report [bare_packet decimal_1_5] = Raise TypeError
  /\ _iso_time (Some float_1_5) = Return (Some "1970-01-01T00:00:01.500000+00:00")
  /\ capture_start_of [] = Return None
  /\ capture_end_of [] = Return None.
Proof.
  split; [reflexivity|]. split; [|split; [|repeat split]].
  - unfold build_report. rewrite capture_start_decimal. reflexivity.
  - vm_compute. reflexivity.
Qed.


(** ** The model on sample inputs *)

Example three_packets_report :
  build_report three_packets =
  Return
    (Report.mk
       (Summary.mk (Some "1970-01-01T00:00:01+00:00")
          (Some "1970-01-01T00:00:03+00:00") 3 170 2
          [ProtocolItem.mk "TCP" 3; ProtocolItem.mk "IPv4" 3]
          [TopTalker.mk "10.0.0.1" 150; TopTalker.mk "10.0.0.2" 20]
          (Some [dominant_talker_alert]))
       [FlowItem.mk "10.0.0.1" "10.0.0.2" "TCP" 150 2;
        FlowItem.mk "10.0.0.2" "10.0.0.1" "TCP" 20 1]).
Proof. vm_compute. reflexivity. Qed.

(** Floats within half a microsecond render alike, a tie goes to the
    even microsecond, and each kind of float the library rejects gives
    its exception. *)
Example iso_time_examples :
  _iso_time (Some (seconds 1)) = Return (Some "1970-01-01T00:00:01+00:00")
  /\ _iso_time (Some float_1_0000001) = Return (Some "1970-01-01T00:00:01+00:00")
  /\ _iso_time (Some (Float (S754_finite true 1 (-1))))
     = Return (Some "1969-12-31T23:59:59.500000+00:00")
  /\ _iso_time (Some (seconds 253402300799))
     = Return (Some "9999-12-31T23:59:59+00:00")
  /\ _iso_time (Some (seconds 253402300800)) = Raise ValueError
  /\ _iso_time (Some (seconds (10 ^ 18))) = Raise OSError
  /\ _iso_time (Some (seconds (10 ^ 30))) = Raise OverflowError
  /\ _iso_time (Some (Float (S754_infinity false))) = Raise OverflowError
  /\ _iso_time (Some (Float S754_nan)) = Raise ValueError
  /\ _iso_time (Some decimal_1_5) = Raise TypeError.
Proof. repeat split; vm_compute; reflexivity. Qed.

Example empty_capture_report : build_report [] = Return empty_report.
Proof. reflexivity. Qed.

(** 40% of DNS packets raise the DNS alert, 30% and exactly 35% do not. *)
Example dns_alert_examples :
  _alert_rules (summary_of_count 100000) [("DNS", 40000)] [] = Return [dns_alert]
  /\ _alert_rules (summary_of_count 100000) [("DNS", 30000)] [] = Return []
  /\ _alert_rules (summary_of_count 100000) [("DNS", 35000)] [] = Return [].
Proof. repeat split; vm_compute; reflexivity. Qed.

(** The integer test for overflow agrees with the rounded quotient at
    the edge of the double range. *)
Example overflow_edge :
  quotient_overflows (2 ^ 1024 - 2 ^ 970) 1 = true
  /\ SFdiv prec emax (exact (2 ^ 1024 - 2 ^ 970)) (exact 1) = S754_infinity false
  /\ quotient_overflows (2 ^ 1024 - 2 ^ 970 - 1) 1 = false
  /\ SFdiv prec emax (exact (2 ^ 1024 - 2 ^ 970 - 1)) (exact 1)
     = S754_finite false 9007199254740991 971.
Proof. repeat split; vm_compute; reflexivity. Qed.

(** * Further properties of the code *)

Lemma count_where_snoc (f : packet -> bool) (pkts : list packet) (p : packet) :
  count_where f (pkts ++ [p]) = count_where f pkts + (if f p then 1 else 0).
Proof.
  unfold count_where. rewrite filter_app, length_app. cbn [filter].
  destruct (f p); cbn [List.length]; lia.
Qed.

Lemma bytes_where_snoc (f : packet -> bool) (pkts : list packet) (p : packet) :
  bytes_where f (pkts ++ [p]) = bytes_where f pkts + (if f p then len p else 0).
Proof.
  unfold bytes_where. rewrite filter_app, map_app, sum_app. cbn [filter].
  destruct (f p); unfold sum at 2; cbn; lia.
Qed.

Lemma carries_in_dec (tag : string) (p : packet) :
  (if in_dec string_dec tag (_protocol_tags p) then 1 else 0)
  = (if carries tag p then 1 else 0).
Proof.
  unfold carries. destruct (in_dec string_dec tag (_protocol_tags p)) as [I|I].
  - assert (E : existsb (String.eqb tag) (_protocol_tags p) = true).
    { apply existsb_exists. exists tag. split; [exact I | apply String.eqb_refl]. }
    now rewrite E.
  - destruct (existsb (String.eqb tag) (_protocol_tags p)) eqn:E; [|reflexivity].
    apply existsb_exists in E. destruct E as (x & Hx & Ex).
    apply String.eqb_eq in Ex. subst. contradiction.
Qed.

Lemma counts_closed (pkts : list packet) (tag : string) :
  get_or String.eqb (protocol_counts (aggregate pkts)) tag 0
  = count_where (carries tag) pkts.
Proof.
  induction pkts as [|p pkts IH] using rev_ind; [reflexivity|].
  rewrite aggregate_snoc, loop_body_counts, counts_fold, IH.
  rewrite (count_occ_NoDup _ _ (protocol_tags_NoDup p)), carries_in_dec.
  now rewrite count_where_snoc.
Qed.

Lemma talkers_closed (pkts : list packet) (h : string) :
  get_or String.eqb (talkers (aggregate pkts)) h 0
  = bytes_where (sent_by h) pkts.
Proof.
  induction pkts as [|p pkts IH] using rev_ind; [reflexivity|].
  rewrite aggregate_snoc, loop_body_talkers, bytes_where_snoc, <- IH.
  unfold sent_by. destruct (src_of p) as [s|]; cbn [is_host]; [|lia].
  rewrite (get_or_update String.eqb String.eqb_eq).
  destruct (String.eqb h s) eqn:E; [|lia].
  apply String.eqb_eq in E. now subst.
Qed.

Lemma flows_closed (pkts : list packet) (k : flow_key) :
  get_or flow_key_eqb (flows (aggregate pkts)) k zero_stats
  = mkStats (count_where (in_flow k) pkts) (bytes_where (in_flow k) pkts).
Proof.
  induction pkts as [|p pkts IH] using rev_ind; [reflexivity|].
  rewrite aggregate_snoc, loop_body_flows, count_where_snoc, bytes_where_snoc.
  rewrite !(get_or_update flow_key_eqb flow_key_eqb_eq).
  change (in_flow k p) with (flow_key_eqb k (packet_flow_key p)).
  destruct (flow_key_eqb k (packet_flow_key p)) eqn:E.
  - rewrite (proj2 (flow_key_eqb_eq _ _) eq_refl).
    apply flow_key_eqb_eq in E. subst k. rewrite IH. reflexivity.
  - rewrite IH. f_equal; lia.
Qed.

(** ** Which keys the dictionaries hold *)

Lemma counts_keys_fold (tags : list string) (c : list (string * Z)) (t : string) :
  In t (keys (fold_left (fun c tag => update String.eqb c tag 0 (fun n => n + 1))
                        tags c))
  <-> In t (keys c) \/ In t tags.
Proof.
  revert c. induction tags as [|x tags IH]; intros c; cbn [fold_left In].
  - tauto.
  - rewrite IH, (In_keys_update String.eqb String.eqb_eq). intuition congruence.
Qed.

Lemma counts_NoDup_fold (tags : list string) (c : list (string * Z)) :
  NoDup (keys c) ->
  NoDup (keys (fold_left (fun c tag => update String.eqb c tag 0 (fun n => n + 1))
                         tags c)).
Proof.
  revert c. induction tags as [|x tags IH]; intros c H; cbn [fold_left].
  - exact H.
  - apply IH. now apply (NoDup_keys_update String.eqb String.eqb_eq).
Qed.

Lemma counts_keys (pkts : list packet) (t : string) :
  In t (keys (protocol_counts (aggregate pkts)))
  <-> exists p, In p pkts /\ In t (_protocol_tags p).
Proof.
  induction pkts as [|p pkts IH] using rev_ind.
  - cbn. split; [intros [] | intros (p & [] & _)].
  - rewrite aggregate_snoc, loop_body_counts, counts_keys_fold, IH. split.
    + intros [(q & Hq & Ht) | Ht].
      * exists q. split; [apply in_or_app; now left | exact Ht].
      * exists p. split; [apply in_or_app; right; now left | exact Ht].
    + intros (q & Hq & Ht). apply in_app_or in Hq. destruct Hq as [Hq | [<- | []]].
      * left. now exists q.
      * now right.
Qed.

Lemma counts_NoDup (pkts : list packet) :
  NoDup (keys (protocol_counts (aggregate pkts))).
Proof.
  induction pkts as [|p pkts IH] using rev_ind; [constructor|].
  rewrite aggregate_snoc, loop_body_counts. now apply counts_NoDup_fold.
Qed.

Lemma carries_In (tag : string) (p : packet) :
  carries tag p = true <-> In tag (_protocol_tags p).
Proof.
  unfold carries. rewrite existsb_exists. split.
  - intros (x & Hx & E). apply String.eqb_eq in E. now subst.
  - intros H. exists tag. split; [exact H | apply String.eqb_refl].
Qed.

(** X1: after the pass the count of a tag is the number of packets that
    carry it, a tag has an entry exactly when some packet carries it,
    and no tag has two entries. *)
Theorem protocol_counts_closed_form (pkts : list packet) (tag : string) :
  get_or String.eqb (protocol_counts (aggregate pkts)) tag 0
    = count_where (carries tag) pkts
  /\ (In tag (keys (protocol_counts (aggregate pkts)))
      <-> exists p, In p pkts /\ carries tag p = true)
  /\ NoDup (keys (protocol_counts (aggregate pkts))).
Proof.
  split; [apply counts_closed|]. split; [|apply counts_NoDup].
  rewrite counts_keys. split; intros (p & Hp & H); exists p;
    (split; [exact Hp | now apply carries_In]).
Qed.

Lemma talkers_keys (pkts : list packet) (h : string) :
  In h (keys (talkers (aggregate pkts)))
  <-> exists p, In p pkts /\ src_of p = Some h.
Proof.
  induction pkts as [|p pkts IH] using rev_ind.
  - cbn. split; [intros [] | intros (p & [] & _)].
  - rewrite aggregate_snoc, loop_body_talkers.
    assert (E : In h (keys match src_of p with
                           | Some h0 => update String.eqb (talkers (aggregate pkts))
                                          h0 0 (fun n => n + len p)
                           | None => talkers (aggregate pkts)
                           end)
                <-> In h (keys (talkers (aggregate pkts))) \/ src_of p = Some h).
    { destruct (src_of p) as [s|].
      - rewrite (In_keys_update String.eqb String.eqb_eq). intuition congruence.
      - intuition discriminate. }
    rewrite E, IH. split.
    + intros [(q & Hq & Hs) | Hs].
      * exists q. split; [apply in_or_app; now left | exact Hs].
      * exists p. split; [apply in_or_app; right; now left | exact Hs].
    + intros (q & Hq & Hs). apply in_app_or in Hq. destruct Hq as [Hq | [<- | []]].
      * left. now exists q.
      * now right.
Qed.

Lemma talkers_NoDup (pkts : list packet) : NoDup (keys (talkers (aggregate pkts))).
Proof.
  induction pkts as [|p pkts IH] using rev_ind; [constructor|].
  rewrite aggregate_snoc, loop_body_talkers. destruct (src_of p); [|exact IH].
  now apply (NoDup_keys_update String.eqb String.eqb_eq).
Qed.

Lemma map_id_values (l : list Z) : map (fun v : Z => v) l = l.
Proof. apply map_id. Qed.

Lemma talkers_sum (pkts : list packet) :
  sum (values (talkers (aggregate pkts)))
  = bytes_where (fun p => isSome (src_of p)) pkts.
Proof.
  induction pkts as [|p pkts IH] using rev_ind; [reflexivity|].
  rewrite aggregate_snoc, loop_body_talkers, bytes_where_snoc, <- IH.
  destruct (src_of p) as [s|]; cbn [isSome]; [|lia].
  pose proof (sum_update String.eqb (fun v : Z => v) (talkers (aggregate pkts))
                s 0 (fun n => n + len p) eq_refl) as S.
  rewrite !map_id_values in S. rewrite S. lia.
Qed.

Lemma bytes_where_le_total (f : packet -> bool) (pkts : list packet) :
  0 <= bytes_where f pkts <= total_bytes_of pkts.
Proof.
  unfold bytes_where, total_bytes_of.
  induction pkts as [|p pkts IH]; cbn [filter map].
  - unfold sum. cbn. lia.
  - assert (0 <= len p) by (unfold len; lia).
    destruct (f p); cbn [map]; rewrite !sum_cons; lia.
Qed.

(** X2: a host's talker total is the summed length of the packets it is
    the source of; the hosts with a total are the sources; and the totals
    add up to the bytes of the packets that have a source, never more than
    [total_bytes]. *)
Theorem talkers_closed_form (pkts : list packet) :
  (forall h, get_or String.eqb (talkers (aggregate pkts)) h 0
             = bytes_where (sent_by h) pkts)
  /\ (forall h, In h (keys (talkers (aggregate pkts)))
                <-> exists p, In p pkts /\ src_of p = Some h)
  /\ NoDup (keys (talkers (aggregate pkts)))
  /\ sum (values (talkers (aggregate pkts)))
     = bytes_where (fun p => isSome (src_of p)) pkts
  /\ sum (values (talkers (aggregate pkts))) <= total_bytes_of pkts.
Proof.
  split; [intros h; apply talkers_closed|].
  split; [intros h; apply talkers_keys|].
  split; [apply talkers_NoDup|]. split; [apply talkers_sum|].
  rewrite talkers_sum. apply bytes_where_le_total.
Qed.

Section DictLookup.
Context {K V : Type}.
Variable eqb : K -> K -> bool.
Hypothesis eqb_eq : forall a b, eqb a b = true <-> a = b.

(** In a dictionary every listed item is what a lookup of its key gives. *)
Lemma NoDup_In_get (d : list (K * V)) (k : K) (v : V) :
  NoDup (keys d) -> In (k, v) d -> get eqb d k = Some v.
Proof.
  induction d as [|[k0 v0] d IH]; cbn; intros N H; [contradiction|].
  inversion N as [|? ? Hn Hd]; subst. destruct H as [[= -> ->] | H].
  - now rewrite (proj2 (eqb_eq k k) eq_refl).
  - destruct (eqb k k0) eqn:E.
    + apply eqb_eq in E. subst. exfalso. apply Hn.
      change k0 with (fst (k0, v)). now apply in_map.
    + now apply IH.
Qed.
End DictLookup.

Lemma flows_keys (pkts : list packet) (k : flow_key) :
  In k (keys (flows (aggregate pkts)))
  <-> exists p, In p pkts /\ packet_flow_key p = k.
Proof.
  induction pkts as [|p pkts IH] using rev_ind.
  - cbn. split; [intros [] | intros (p & [] & _)].
  - rewrite aggregate_snoc, loop_body_flows.
    rewrite !(In_keys_update flow_key_eqb flow_key_eqb_eq), IH. split.
    + intros [[(q & Hq & Hk) | Hk] | Hk].
      * exists q. split; [apply in_or_app; now left | exact Hk].
      * exists p. split; [apply in_or_app; right; now left | now symmetry].
      * exists p. split; [apply in_or_app; right; now left | now symmetry].
    + intros (q & Hq & Hk). apply in_app_or in Hq. destruct Hq as [Hq | [<- | []]].
      * left. left. now exists q.
      * right. now symmetry.
Qed.

Lemma count_where_pos (f : packet -> bool) (pkts : list packet) (p : packet) :
  In p pkts -> f p = true -> 1 <= count_where f pkts.
Proof.
  intros Hp Hf. unfold count_where.
  assert (I : In p (filter f pkts)) by (apply filter_In; now split).
  destruct (filter f pkts); [contradiction | cbn [List.length]; lia].
Qed.

(** X3: the entry of a flow key holds the number and the summed length
    of the packets with that key; a key has an entry exactly when a
    packet has it; and every entry counts at least one packet and no
    negative bytes, its packet count never above [packet_count]. *)
Theorem flows_closed_form (pkts : list packet) :
  (forall k, get_or flow_key_eqb (flows (aggregate pkts)) k zero_stats
             = mkStats (count_where (in_flow k) pkts) (bytes_where (in_flow k) pkts))
  /\ (forall k, In k (keys (flows (aggregate pkts)))
                <-> exists p, In p pkts /\ packet_flow_key p = k)
  /\ (forall k fs, In (k, fs) (flows (aggregate pkts)) ->
        fs = mkStats (count_where (in_flow k) pkts) (bytes_where (in_flow k) pkts)
        /\ 1 <= packets fs <= packet_count_of pkts
        /\ 0 <= bytes fs <= total_bytes_of pkts).
Proof.
  split; [intros k; apply flows_closed|]. split; [intros k; apply flows_keys|].
  intros k fs H.
  pose proof (NoDup_In_get flow_key_eqb flow_key_eqb_eq _ k fs
                (aggregate_flows_NoDup pkts) H) as G.
  pose proof (flows_closed pkts k) as C. unfold get_or in C. rewrite G in C.
  subst fs. split; [reflexivity|]. cbn [packets bytes].
  assert (Hk : In k (keys (flows (aggregate pkts)))).
  { change k with (fst (k, mkStats (count_where (in_flow k) pkts)
                                   (bytes_where (in_flow k) pkts))).
    now apply in_map. }
  apply flows_keys in Hk. destruct Hk as (p & Hp & E).
  split; [|apply bytes_where_le_total]. split.
  - apply (count_where_pos _ _ p Hp). unfold in_flow. rewrite E.
    now apply flow_key_eqb_eq.
  - unfold count_where, packet_count_of. apply Nat2Z.inj_le, filter_length_le.
Qed.

Lemma flows_closed_form_witness :
  In (("10.0.0.1", "10.0.0.2", "TCP"), mkStats 2 150) (flows (aggregate three_packets))
  /\ mkStats 2 150
     = mkStats (count_where (in_flow ("10.0.0.1", "10.0.0.2", "TCP")) three_packets)
               (bytes_where (in_flow ("10.0.0.1", "10.0.0.2", "TCP")) three_packets)
  /\ 1 <= packets (mkStats 2 150) <= packet_count_of three_packets
  /\ 0 <= bytes (mkStats 2 150) <= total_bytes_of three_packets.
Proof.
  split; [left; reflexivity|].
  apply (proj2 (proj2 (flows_closed_form three_packets))). left. reflexivity.
Defined.

(** ** The hosts seen *)

Lemma hosts_In (pkts : list packet) (h : string) :
  In h (unique_hosts (aggregate pkts))
  <-> exists p, In p pkts /\ (src_of p = Some h \/ dst_of p = Some h).
Proof.
  induction pkts as [|p pkts IH] using rev_ind.
  - cbn. split; [intros [] | intros (p & [] & _)].
  - rewrite aggregate_snoc, loop_body_hosts. cbv zeta.
    assert (E : In h match dst_of p with
                     | Some h0 => set_add h0 match src_of p with
                                            | Some h1 => set_add h1 (unique_hosts (aggregate pkts))
                                            | None => unique_hosts (aggregate pkts)
                                            end
                     | None => match src_of p with
                               | Some h1 => set_add h1 (unique_hosts (aggregate pkts))
                               | None => unique_hosts (aggregate pkts)
                               end
                     end
                <-> In h (unique_hosts (aggregate pkts))
                    \/ (src_of p = Some h \/ dst_of p = Some h)).
    { destruct (src_of p) as [s|], (dst_of p) as [d|];
        rewrite ?set_add_In; intuition congruence. }
    rewrite E, IH. split.
    + intros [(q & Hq & Hs) | Hs].
      * exists q. split; [apply in_or_app; now left | exact Hs].
      * exists p. split; [apply in_or_app; right; now left | exact Hs].
    + intros (q & Hq & Hs). apply in_app_or in Hq. destruct Hq as [Hq | [<- | []]].
      * left. now exists q.
      * now right.
Qed.

Lemma hosts_NoDup (pkts : list packet) : NoDup (unique_hosts (aggregate pkts)).
Proof.
  induction pkts as [|p pkts IH] using rev_ind; [constructor|].
  rewrite aggregate_snoc, loop_body_hosts. cbv zeta.
  destruct (src_of p), (dst_of p); repeat apply set_add_NoDup; exact IH.
Qed.

Lemma set_add_length (x : string) (s : list string) :
  (List.length (set_add x s) <= S (List.length s))%nat.
Proof.
  induction s as [|y s IH]; cbn; [lia|].
  destruct (String.eqb x y); cbn; lia.
Qed.

Lemma hosts_length (pkts : list packet) :
  (List.length (unique_hosts (aggregate pkts)) <= 2 * List.length pkts)%nat.
Proof.
  induction pkts as [|p pkts IH] using rev_ind; [cbn; lia|].
  rewrite aggregate_snoc, loop_body_hosts, length_app. cbv zeta. cbn [List.length].
  destruct (src_of p) as [s|], (dst_of p) as [d|].
  - pose proof (set_add_length d (set_add s (unique_hosts (aggregate pkts)))).
    pose proof (set_add_length s (unique_hosts (aggregate pkts))). lia.
  - pose proof (set_add_length s (unique_hosts (aggregate pkts))). lia.
  - pose proof (set_add_length d (unique_hosts (aggregate pkts))). lia.
  - lia.
Qed.

(** X4: the hosts counted by [unique_hosts] are exactly the addresses
    that some packet has as its source or destination, each counted once;
    every talker is among them, so there are at least as many hosts as
    talkers and at most two per packet. *)
Theorem unique_hosts_spec (pkts : list packet) :
  (forall h, In h (unique_hosts (aggregate pkts))
             <-> exists p, In p pkts /\ (src_of p = Some h \/ dst_of p = Some h))
  /\ NoDup (unique_hosts (aggregate pkts))
  /\ incl (keys (talkers (aggregate pkts))) (unique_hosts (aggregate pkts))
  /\ (List.length (talkers (aggregate pkts))
      <= List.length (unique_hosts (aggregate pkts))
      <= 2 * List.length pkts)%nat.
Proof.
  assert (I : incl (keys (talkers (aggregate pkts))) (unique_hosts (aggregate pkts))).
  { intros h H. apply talkers_keys in H. destruct H as (p & Hp & Hs).
    apply hosts_In. exists p. auto. }
  split; [intros h; apply hosts_In|]. split; [apply hosts_NoDup|].
  split; [exact I|]. split; [|apply hosts_length].
  rewrite <- (length_map fst (talkers (aggregate pkts))).
  apply NoDup_incl_length; [apply talkers_NoDup | exact I].
Qed.

(** ** Flow keys *)

Lemma or_str_nonempty (o : option string) : or_str o "unknown" <> "".
Proof.
  unfold or_str, truthy. destruct o as [s|]; [|discriminate].
  destruct (String.eqb s "") eqn:E; [discriminate|].
  now apply String.eqb_neq in E.
Qed.

(** X5: the flow key of a packet never has an empty source or
    destination, and its label is ["TCP"] exactly when the packet carries
    the TCP tag, ["UDP"] exactly when it carries the UDP tag without the
    TCP tag, and ["Other"] otherwise, also for a packet whose tags are
    not ["Other"]. *)
Theorem flow_key_components (p : packet) :
  let '(s, d, label) := packet_flow_key p in
  s <> "" /\ d <> ""
  /\ (label = "TCP" <-> In "TCP" (_protocol_tags p))
  /\ (label = "UDP" <-> In "UDP" (_protocol_tags p) /\ ~ In "TCP" (_protocol_tags p))
  /\ (label = "Other" <-> ~ In "UDP" (_protocol_tags p) /\ ~ In "TCP" (_protocol_tags p)).
Proof.
  rewrite packet_flow_key_eq.
  split; [apply or_str_nonempty|]. split; [apply or_str_nonempty|].
  destruct p as [t n i4 i6 b1 b2 b3 b4].
  unfold transport_label, _protocol_tags. cbn [tcp udp icmp dns ip ipv6].
  destruct b1, b2, b3, b4, i6, i4; cbn; intuition discriminate.
Qed.

(** ** Order of the packets and concatenation of captures *)

Lemma sum_perm (l l' : list Z) : Permutation l l' -> sum l = sum l'.
Proof.
  induction 1 as [|x l l' _ IH|x y l|l l' l'' _ IH1 _ IH2].
  - reflexivity.
  - rewrite !sum_cons. lia.
  - rewrite !sum_cons. lia.
  - lia.
Qed.

Lemma filter_perm {A : Type} (f : A -> bool) (l l' : list A) :
  Permutation l l' -> Permutation (filter f l) (filter f l').
Proof.
  induction 1 as [|x l l' _ IH|x y l|l l' l'' _ IH1 _ IH2]; cbn.
  - constructor.
  - destruct (f x); [now constructor | exact IH].
  - destruct (f x), (f y); try apply Permutation_refl. apply perm_swap.
  - now apply perm_trans with (filter f l').
Qed.

Lemma count_where_perm (f : packet -> bool) (l l' : list packet) :
  Permutation l l' -> count_where f l = count_where f l'.
Proof.
  intros P. unfold count_where. f_equal.
  apply Permutation_length. now apply filter_perm.
Qed.

Lemma bytes_where_perm (f : packet -> bool) (l l' : list packet) :
  Permutation l l' -> bytes_where f l = bytes_where f l'.
Proof.
  intros P. unfold bytes_where. apply sum_perm, Permutation_map.
  now apply filter_perm.
Qed.

(** X6: the order of the packets does not change any counter: the same
    packets in another order give the same totals, the same count for
    every tag, the same talker total for every host, the same set of
    hosts and the same statistics for every flow. *)
Theorem aggregate_order_independent (pkts pkts' : list packet)
  (P : Permutation pkts pkts') :
  packet_count_of pkts = packet_count_of pkts'
  /\ total_bytes_of pkts = total_bytes_of pkts'
  /\ (forall tag, get_or String.eqb (protocol_counts (aggregate pkts)) tag 0
                  = get_or String.eqb (protocol_counts (aggregate pkts')) tag 0)
  /\ (forall h, get_or String.eqb (talkers (aggregate pkts)) h 0
                = get_or String.eqb (talkers (aggregate pkts')) h 0)
  /\ (forall h, In h (unique_hosts (aggregate pkts))
                <-> In h (unique_hosts (aggregate pkts')))
  /\ List.length (unique_hosts (aggregate pkts))
     = List.length (unique_hosts (aggregate pkts'))
  /\ (forall k, get_or flow_key_eqb (flows (aggregate pkts)) k zero_stats
                = get_or flow_key_eqb (flows (aggregate pkts')) k zero_stats).
Proof.
  assert (H : forall h, In h (unique_hosts (aggregate pkts))
                        <-> In h (unique_hosts (aggregate pkts'))).
  { intros h. rewrite !hosts_In. split; intros (p & Hp & Hs); exists p;
      (split; [|exact Hs]).
    - now apply (Permutation_in _ P).
    - now apply (Permutation_in _ (Permutation_sym P)). }
  split; [unfold packet_count_of; now rewrite (Permutation_length P)|].
  split; [unfold total_bytes_of; now apply sum_perm, Permutation_map|].
  split; [intros tag; rewrite !counts_closed; now apply count_where_perm|].
  split; [intros h; rewrite !talkers_closed; now apply bytes_where_perm|].
  split; [exact H|]. split.
  - apply Permutation_length, NoDup_Permutation; [apply hosts_NoDup.. | exact H].
  - intros k. rewrite !flows_closed. f_equal;
      [now apply count_where_perm | now apply bytes_where_perm].
Qed.

Lemma aggregate_order_independent_witness :
  Permutation three_packets (rev three_packets)
  /\ total_bytes_of three_packets = total_bytes_of (rev three_packets)
  /\ (forall h, get_or String.eqb (talkers (aggregate three_packets)) h 0
                = get_or String.eqb (talkers (aggregate (rev three_packets))) h 0).
Proof.
  split; [apply Permutation_rev|].
  pose proof (aggregate_order_independent three_packets (rev three_packets)
                (Permutation_rev three_packets)) as H.
  split; [apply H | apply H].
Defined.

Lemma count_where_app (f : packet -> bool) (a b : list packet) :
  count_where f (a ++ b) = count_where f a + count_where f b.
Proof. unfold count_where. rewrite filter_app, length_app. lia. Qed.

Lemma bytes_where_app (f : packet -> bool) (a b : list packet) :
  bytes_where f (a ++ b) = bytes_where f a + bytes_where f b.
Proof. unfold bytes_where. now rewrite filter_app, map_app, sum_app. Qed.

(** X7: aggregating two captures one after the other adds their
    counters: the count of every tag, the talker total of every host and
    the packet and byte counts of every flow are the sums of what each
    capture gives alone, so no counter ever decreases when packets are
    appended. *)
Theorem aggregate_additive (a b : list packet) :
  (forall tag, get_or String.eqb (protocol_counts (aggregate (a ++ b))) tag 0
               = get_or String.eqb (protocol_counts (aggregate a)) tag 0
                 + get_or String.eqb (protocol_counts (aggregate b)) tag 0)
  /\ (forall h, get_or String.eqb (talkers (aggregate (a ++ b))) h 0
                = get_or String.eqb (talkers (aggregate a)) h 0
                  + get_or String.eqb (talkers (aggregate b)) h 0)
  /\ (forall k,
        let fa := get_or flow_key_eqb (flows (aggregate a)) k zero_stats in
        let fb := get_or flow_key_eqb (flows (aggregate b)) k zero_stats in
        get_or flow_key_eqb (flows (aggregate (a ++ b))) k zero_stats
        = mkStats (packets fa + packets fb) (bytes fa + bytes fb))
  /\ (forall tag, get_or String.eqb (protocol_counts (aggregate a)) tag 0
                  <= get_or String.eqb (protocol_counts (aggregate (a ++ b))) tag 0)
  /\ (forall h, get_or String.eqb (talkers (aggregate a)) h 0
                <= get_or String.eqb (talkers (aggregate (a ++ b))) h 0)
  /\ (forall k,
        packets (get_or flow_key_eqb (flows (aggregate a)) k zero_stats)
        <= packets (get_or flow_key_eqb (flows (aggregate (a ++ b))) k zero_stats)
        /\ bytes (get_or flow_key_eqb (flows (aggregate a)) k zero_stats)
           <= bytes (get_or flow_key_eqb (flows (aggregate (a ++ b))) k zero_stats)).
Proof.
  split; [intros tag; rewrite !counts_closed; apply count_where_app|].
  split; [intros h; rewrite !talkers_closed; apply bytes_where_app|].
  split; [intros k; cbv zeta; rewrite !flows_closed; cbn [packets bytes];
          now rewrite count_where_app, bytes_where_app|].
  split; [intros tag; rewrite !counts_closed, count_where_app;
          unfold count_where; lia|].
  split; [intros h; rewrite !talkers_closed, bytes_where_app;
          pose proof (bytes_where_le_total (sent_by h) b); lia|].
  intros k. rewrite !flows_closed. cbn [packets bytes].
  rewrite count_where_app, bytes_where_app.
  pose proof (bytes_where_le_total (in_flow k) b). unfold count_where. lia.
Qed.

(** ** The alert list *)

(** X8: the alerts come out in the order of the rules, each at most
    once: the returned list is the three messages in rule order with some
    of them left out. *)
Theorem alerts_in_rule_order (s : Summary.t) (c t : list (string * Z))
  (alerts : list string) (H : _alert_rules s c t = Return alerts) :
  exists b1 b2 b3 : bool,
    alerts = (if b1 then [large_capture_alert] else [])
             ++ (if b2 then [dns_alert] else [])
             ++ (if b3 then [dominant_talker_alert] else []).
Proof.
  unfold _alert_rules in H.
  destruct (dns_rule _ _ _) as [a1|e] eqn:E1; cbn [bind] in H; [|discriminate].
  destruct (dominant_talker_rule t a1) as [a2|e] eqn:E2; cbn [bind] in H;
    [|discriminate].
  injection H as <-.
  apply dns_rule_result in E1. apply dominant_talker_rule_result in E2.
  unfold large_capture_rule in E1.
  exists (Summary.packet_count s >? 100000).
  destruct (Summary.packet_count s >? 100000);
    destruct E1 as [-> | ->], E2 as [-> | ->];
    first [ exists true, true; reflexivity | exists true, false; reflexivity
          | exists false, true; reflexivity | exists false, false; reflexivity ].
Qed.

Lemma alerts_in_rule_order_witness :
  _alert_rules (summary_of_count 100001) [("DNS", 50000)] [("10.0.0.1", 9)]
  = Return [large_capture_alert; dns_alert; dominant_talker_alert]
  /\ exists b1 b2 b3 : bool,
       [large_capture_alert; dns_alert; dominant_talker_alert]
       = (if b1 then [large_capture_alert] else [])
         ++ (if b2 then [dns_alert] else [])
         ++ (if b3 then [dominant_talker_alert] else []).
Proof.
  split; [vm_compute; reflexivity|].
  apply (alerts_in_rule_order (summary_of_count 100001) [("DNS", 50000)]
           [("10.0.0.1", 9)]).
  vm_compute. reflexivity.
Defined.

Lemma dns_rule_zero (pc : Z) (alerts : list string) :
  dns_rule pc 0 alerts = Return alerts.
Proof.
  unfold dns_rule. destruct (pc =? 0) eqn:E; [reflexivity|].
  unfold int_truediv. rewrite E.
  assert (O : quotient_overflows 0 pc = false).
  { unfold quotient_overflows. apply Z.leb_gt. apply Z.eqb_neq in E.
    assert (0 < 2 ^ 1024 - 2 ^ 970) by (vm_compute; reflexivity).
    cbn [Z.abs]. nia. }
  rewrite O. cbn [bind]. apply Z.eqb_neq in E.
  destruct pc as [|p|p]; [contradiction | reflexivity | reflexivity].
Qed.

(** X9: with no packet tagged DNS the DNS alert is never raised,
    whatever the packet count. *)
Theorem no_dns_no_alert (s : Summary.t) (c t : list (string * Z))
  (alerts : list string)
  (Hc : get_or String.eqb c "DNS" 0 = 0)
  (H : _alert_rules s c t = Return alerts) :
  ~ In dns_alert alerts.
Proof.
  unfold _alert_rules in H. rewrite Hc, dns_rule_zero in H. cbn [bind] in H.
  destruct (dominant_talker_rule t _) as [a2|e] eqn:E2; cbn [bind] in H;
    [|discriminate].
  injection H as <-. apply dominant_talker_rule_result in E2.
  unfold large_capture_rule in E2.
  destruct (Summary.packet_count s >? 100000); destruct E2 as [-> | ->]; cbn;
    intuition discriminate.
Qed.

Lemma no_dns_no_alert_witness :
  get_or String.eqb [("TCP", 3)] "DNS" 0 = 0
  /\ _alert_rules (summary_of_count 3) [("TCP", 3)] [("10.0.0.1", 9)]
     = Return [dominant_talker_alert]
  /\ ~ In dns_alert [dominant_talker_alert].
Proof.
  split; [reflexivity|]. split; [vm_compute; reflexivity|].
  apply (no_dns_no_alert (summary_of_count 3) [("TCP", 3)] [("10.0.0.1", 9)]).
  - reflexivity.
  - vm_compute. reflexivity.
Defined.

(** ** Rendered timestamps *)





(** ** Length of the rankings *)

(** X13: the rankings hold 12 entries or, when there are at most 12
    talkers or flows, all of them. *)
Theorem rankings_length (pkts : list packet) :
  List.length (top_talkers_of (talkers (aggregate pkts)))
    = Nat.min 12 (List.length (talkers (aggregate pkts)))
  /\ List.length (flow_items_of (flows (aggregate pkts)))
    = Nat.min 12 (List.length (flows (aggregate pkts)))
  /\ ((List.length (talkers (aggregate pkts)) <= 12)%nat ->
      Permutation (top_talkers_of (talkers (aggregate pkts)))
                  (map talker_item (talkers (aggregate pkts))))
  /\ ((List.length (flows (aggregate pkts)) <= 12)%nat ->
      Permutation (flow_items_of (flows (aggregate pkts)))
                  (map flow_item (flows (aggregate pkts)))).
Proof.
  unfold top_talkers_of, flow_items_of.
  rewrite !length_map, !length_firstn, !sorted_desc_length.
  split; [reflexivity|]. split; [reflexivity|].
  split; intros H; apply Permutation_map;
    (rewrite firstn_all2 by (rewrite sorted_desc_length; exact H));
    apply sorted_desc_perm.
Qed.

Lemma rankings_length_witness :
  (List.length (talkers (aggregate three_packets)) <= 12)%nat
  /\ Permutation (top_talkers_of (talkers (aggregate three_packets)))
                 (map talker_item (talkers (aggregate three_packets))).
Proof.
  assert (H : (List.length (talkers (aggregate three_packets)) <= 12)%nat)
    by (vm_compute; lia).
  split; [exact H|].
  apply (proj1 (proj2 (proj2 (rankings_length three_packets))) H).
Defined.

(** ** Outcome of the report builder *)

Lemma alert_rules_returns (pkts : list packet) cs ce tb uh pr tt al :
  exists alerts,
    _alert_rules (Summary.mk cs ce (packet_count_of pkts) tb uh pr tt al)
      (protocol_counts (aggregate pkts)) (talkers (aggregate pkts))
    = Return alerts.
Proof.
  unfold _alert_rules. cbn [Summary.packet_count].
  assert (exists a1, dns_rule (packet_count_of pkts)
            (get_or String.eqb (protocol_counts (aggregate pkts)) "DNS" 0)
            (large_capture_rule (packet_count_of pkts) []) = Return a1) as [a1 ->].
  { unfold dns_rule. destruct (packet_count_of pkts =? 0) eqn:E; [eauto|].
    apply Z.eqb_neq in E. pose proof (counts_bound pkts "DNS") as B.
    destruct (int_truediv_returns
                (get_or String.eqb (protocol_counts (aggregate pkts)) "DNS" 0)
                (packet_count_of pkts)) as [r ->]; [exact E | lia |].
    cbn [bind]. eauto. }
  cbn [bind].
  destruct (dominant_talker_rule_returns (talkers (aggregate pkts)) a1
              (talkers_nonneg pkts)) as [a2 ->].
  cbn [bind]. eauto.
Qed.

Lemma capture_end_cases (pkts : list packet) :
  pkts = [] \/ exists rest q, pkts = rest ++ [q].
Proof.
  destruct pkts as [|p pkts] using rev_ind; [now left | right; eauto].
Qed.

(** X14: the handler body fails only where [_iso_time] fails on the time
    of the first or of the last packet, and then with the exception
    [_iso_time] raises: the indexing, the aggregation and the alert rules
    never fail.  When both bounds are rendered it returns the report made
    of them, of the counts and rankings of the capture and of the alerts
    the rules return. *)
Theorem build_report_outcome (pkts : list packet) :
  (forall e, build_report pkts = Raise e ->
     exists p, (hd_error pkts = Some p \/ hd_error (rev pkts) = Some p)
               /\ _iso_time (time p) = Raise e)
  /\ (forall cs ce,
        capture_start_of pkts = Return cs -> capture_end_of pkts = Return ce ->
        let st := aggregate pkts in
        let summary :=
          Summary.mk cs ce (packet_count_of pkts) (total_bytes_of pkts)
            (Z.of_nat (List.length (unique_hosts st)))
            (map protocol_item (most_common (protocol_counts st)))
            (top_talkers_of (talkers st)) None in
        exists alerts,
          _alert_rules summary (protocol_counts st) (talkers st) = Return alerts
          /\ build_report pkts
             = Return (Report.mk (Summary.set_alerts summary alerts)
                                 (flow_items_of (flows st)))).
Proof.
  split.
  - intros e H. unfold build_report in H. cbv zeta in H.
    destruct (capture_start_of pkts) as [cs|e1] eqn:E1; cbn [bind] in H.
    + destruct (capture_end_of pkts) as [ce|e2] eqn:E2; cbn [bind] in H.
      * destruct (alert_rules_returns pkts cs ce (total_bytes_of pkts)
                    (Z.of_nat (List.length (unique_hosts (aggregate pkts))))
                    (map protocol_item (most_common (protocol_counts (aggregate pkts))))
                    (top_talkers_of (talkers (aggregate pkts))) None) as [al A].
        rewrite A in H. discriminate.
      * injection H as <-.
        destruct (capture_end_cases pkts) as [-> | (rest & q & ->)];
          [discriminate|].
        rewrite capture_end_last in E2. exists q. split; [|exact E2].
        right. rewrite rev_app_distr. reflexivity.
    + injection H as <-. destruct pkts as [|p rest]; [discriminate|].
      rewrite capture_start_first in E1. exists p. split; [now left | exact E1].
  - intros cs ce Hs He st summary. subst st summary.
    destruct (alert_rules_returns pkts cs ce (total_bytes_of pkts)
                (Z.of_nat (List.length (unique_hosts (aggregate pkts))))
                (map protocol_item (most_common (protocol_counts (aggregate pkts))))
                (top_talkers_of (talkers (aggregate pkts))) None) as [al A].
    exists al. split; [exact A|].
    unfold build_report. cbv zeta. rewrite Hs, He. cbn [bind].
    rewrite A. reflexivity.
Qed.

Lemma build_report_outcome_witness :
  capture_start_of three_packets = Return (Some "1970-01-01T00:00:01+00:00")
  /\ capture_end_of three_packets = Return (Some "1970-01-01T00:00:03+00:00")
  /\ exists alerts,
       _alert_rules
         (Summary.mk (Some "1970-01-01T00:00:01+00:00")
            (Some "1970-01-01T00:00:03+00:00")
            (packet_count_of three_packets) (total_bytes_of three_packets)
            (Z.of_nat (List.length (unique_hosts (aggregate three_packets))))
            (map protocol_item
               (most_common (protocol_counts (aggregate three_packets))))
            (top_talkers_of (talkers (aggregate three_packets))) None)
         (protocol_counts (aggregate three_packets))
         (talkers (aggregate three_packets)) = Return alerts
       /\ build_report three_packets
          = Return
              (Report.mk
                 (Summary.set_alerts
                    (Summary.mk (Some "1970-01-01T00:00:01+00:00")
                       (Some "1970-01-01T00:00:03+00:00")
                       (packet_count_of three_packets)
                       (total_bytes_of three_packets)
                       (Z.of_nat
                          (List.length (unique_hosts (aggregate three_packets))))
                       (map protocol_item
                          (most_common
                             (protocol_counts (aggregate three_packets))))
                       (top_talkers_of (talkers (aggregate three_packets)))
                       None) alerts)
                 (flow_items_of (flows (aggregate three_packets)))).
Proof.
  assert (Hs : capture_start_of three_packets
               = Return (Some "1970-01-01T00:00:01+00:00"))
    by (vm_compute; reflexivity).
  assert (He : capture_end_of three_packets
               = Return (Some "1970-01-01T00:00:03+00:00"))
    by (vm_compute; reflexivity).
  split; [exact Hs|]. split; [exact He|].
  apply (proj2 (build_report_outcome three_packets) _ _ Hs He).
Defined.


(** ** The protocol breakdown *)

Lemma protocol_item_fields (item : string * Z) :
  ProtocolItem.name (protocol_item item) = fst item
  /\ ProtocolItem.count (protocol_item item) = snd item.
Proof. destruct item. split; reflexivity. Qed.

Lemma counts_In_closed (pkts : list packet) (name : string) (n : Z) :
  In (name, n) (protocol_counts (aggregate pkts))
  <-> n = count_where (carries name) pkts /\ 1 <= n.
Proof.
  split.
  - intros H.
    pose proof (NoDup_In_get String.eqb String.eqb_eq _ name n (counts_NoDup pkts) H)
      as G.
    pose proof (counts_closed pkts name) as C. unfold get_or in C. rewrite G in C.
    split; [exact C|]. subst n.
    assert (K : In name (keys (protocol_counts (aggregate pkts)))).
    { change name with (fst (name, count_where (carries name) pkts)).
      now apply in_map. }
    apply counts_keys in K. destruct K as (p & Hp & Ht).
    apply (count_where_pos _ _ p Hp). now apply carries_In.
  - intros [-> Hn].
    assert (K : In name (keys (protocol_counts (aggregate pkts)))).
    { apply counts_keys. unfold count_where in Hn.
      destruct (filter (carries name) pkts) as [|p l] eqn:F; [cbn in Hn; lia|].
      assert (I : In p (filter (carries name) pkts)) by (rewrite F; now left).
      apply filter_In in I. destruct I as [Hp Hc]. exists p.
      split; [exact Hp | now apply carries_In]. }
    unfold keys in K. apply in_map_iff in K. destruct K as ([k v] & E & Hin).
    cbn in E. subst k.
    pose proof (NoDup_In_get String.eqb String.eqb_eq _ name v (counts_NoDup pkts) Hin)
      as G.
    pose proof (counts_closed pkts name) as C. unfold get_or in C. rewrite G in C.
    now subst v.
Qed.

Lemma counts_keys_fold_note (tags : list string) (c : list (string * Z)) :
  keys (fold_left (fun c tag => update String.eqb c tag 0 (fun n => n + 1))
                  tags c)
  = fold_left (note String.eqb) tags (keys c).
Proof.
  revert c. induction tags as [|x tags IH]; intros c; cbn [fold_left].
  - reflexivity.
  - rewrite IH, keys_update_note. reflexivity.
Qed.

Lemma counts_keys_first_seen (pkts : list packet) :
  keys (protocol_counts (aggregate pkts))
  = first_seen String.eqb (flat_map _protocol_tags pkts).
Proof.
  unfold first_seen.
  induction pkts as [|p pkts IH] using rev_ind; [reflexivity|].
  rewrite aggregate_snoc, loop_body_counts, counts_keys_fold_note, IH.
  rewrite flat_map_app, fold_left_app. cbn [flat_map]. now rewrite app_nil_r.
Qed.

(** X15: the protocol breakdown of the report lists every tag that some
    packet carries once, with the number of packets that carry it, in
    descending order of these numbers; tags with equal numbers stay in
    the order of the counter, which is the order in which the tags were
    first met, going through the packets and the tags of each packet in
    order. *)
Theorem protocols_spec (pkts : list packet) :
  let counts := protocol_counts (aggregate pkts) in
  let protocols := map protocol_item (most_common counts) in
  StronglySorted (desc ProtocolItem.count) protocols
  /\ NoDup (map ProtocolItem.name protocols)
  /\ (forall name n, In (ProtocolItem.mk name n) protocols
                     <-> n = count_where (carries name) pkts /\ 1 <= n)
  /\ (forall k, filter (has_key ProtocolItem.count k) protocols
                = map protocol_item (filter (has_key (fun item => snd item) k) counts))
  /\ keys counts = first_seen String.eqb (flat_map _protocol_tags pkts).
Proof.
  intros counts protocols. subst protocols. unfold most_common.
  pose proof (sorted_desc_perm (fun item : string * Z => snd item) counts) as P.
  split; [|split; [|split; [|split; [|apply counts_keys_first_seen]]]].
  - apply StronglySorted_map with (R := desc (fun item : string * Z => snd item));
      [|apply sorted_desc_sorted].
    intros [a x] [b y]. unfold desc. cbn. tauto.
  - rewrite map_map.
    rewrite (map_ext _ fst) by (intros [a x]; reflexivity).
    apply (Permutation_NoDup (l := keys counts));
      [apply Permutation_map, Permutation_sym, P | apply counts_NoDup].
  - intros name n. rewrite <- counts_In_closed. fold counts. split.
    + intros H. apply in_map_iff in H. destruct H as ([a x] & E & Hin).
      cbn in E. injection E as -> ->. now apply (Permutation_in _ P).
    + intros H. apply in_map_iff. exists (name, n). split; [reflexivity|].
      now apply (Permutation_in _ (Permutation_sym P)).
  - intros k. rewrite filter_map_comm. f_equal.
    rewrite <- (sorted_desc_stable (fun item : string * Z => snd item) k counts).
    apply filter_ext. intros [a x]. reflexivity.
Qed.

Lemma counts_sum_fold (tags : list string) (c : list (string * Z)) :
  sum (values (fold_left (fun c tag => update String.eqb c tag 0 (fun n => n + 1))
                         tags c))
  = sum (values c) + Z.of_nat (List.length tags).
Proof.
  revert c. induction tags as [|x tags IH]; intros c; cbn [fold_left List.length].
  - lia.
  - rewrite IH.
    pose proof (sum_update String.eqb (fun v : Z => v) c x 0 (fun n => n + 1) eq_refl)
      as S.
    rewrite !map_id_values in S. rewrite S. lia.
Qed.

Lemma protocol_tags_length (p : packet) :
  (1 <= List.length (_protocol_tags p) <= 6)%nat.
Proof.
  destruct p as [t n i4 i6 b1 b2 b3 b4]. unfold _protocol_tags.
  cbn [tcp udp icmp dns ip ipv6].
  destruct b1, b2, b3, b4, i6, i4; cbn; lia.
Qed.

(** X16: the tag counts add up to the number of tags over all packets,
    which is at least [packet_count] and at most six times as much: every
    packet is counted under at least one tag. *)
Theorem protocol_counts_sum (pkts : list packet) :
  sum (values (protocol_counts (aggregate pkts)))
    = sum (map (fun p => Z.of_nat (List.length (_protocol_tags p))) pkts)
  /\ packet_count_of pkts
     <= sum (values (protocol_counts (aggregate pkts)))
     <= 6 * packet_count_of pkts.
Proof.
  assert (E : sum (values (protocol_counts (aggregate pkts)))
              = sum (map (fun p => Z.of_nat (List.length (_protocol_tags p))) pkts)).
  { induction pkts as [|p pkts IH] using rev_ind; [reflexivity|].
    rewrite aggregate_snoc, loop_body_counts, counts_sum_fold, IH.
    rewrite map_app, sum_app. cbn [map]. rewrite (sum_cons _ []).
    change (sum []) with 0. lia. }
  split; [exact E|]. rewrite E. clear E. unfold packet_count_of.
  induction pkts as [|p pkts IH]; [cbn; lia|].
  cbn [map List.length]. rewrite sum_cons.
  pose proof (protocol_tags_length p). lia.
Qed.

(** ** The classifier *)

(** X17: the two endpoints of a packet are present together or absent
    together, and they are present exactly when the packet is tagged IPv4
    or IPv6. *)
Theorem endpoints_and_tags (p : packet) :
  (fst (_packet_src_dst p) = None <-> snd (_packet_src_dst p) = None)
  /\ (fst (_packet_src_dst p) <> None
      <-> In "IPv4" (_protocol_tags p) \/ In "IPv6" (_protocol_tags p)).
Proof.
  destruct p as [t n i4 i6 b1 b2 b3 b4].
  unfold _packet_src_dst, _protocol_tags. cbn [tcp udp icmp dns ip ipv6].
  destruct b1, b2, b3, b4, i6, i4; cbn; intuition (discriminate || congruence).
Qed.

(** X18: the tags of a packet are taken from the seven known names, none
    is repeated, there are between one and six of them, and ["Other"]
    never stands beside another tag. *)
Theorem protocol_tags_alphabet (p : packet) :
  incl (_protocol_tags p) ["TCP"; "UDP"; "ICMP"; "DNS"; "IPv6"; "IPv4"; "Other"]
  /\ NoDup (_protocol_tags p)
  /\ (1 <= List.length (_protocol_tags p) <= 6)%nat
  /\ (In "Other" (_protocol_tags p) <-> _protocol_tags p = ["Other"]).
Proof.
  split; [|split; [apply protocol_tags_NoDup|split; [apply protocol_tags_length|]]].
  - destruct p as [t n i4 i6 b1 b2 b3 b4]. unfold _protocol_tags.
    cbn [tcp udp icmp dns ip ipv6].
    destruct b1, b2, b3, b4, i6, i4; cbn; intros x Hx; cbn in *; intuition.
  - destruct p as [t n i4 i6 b1 b2 b3 b4]. unfold _protocol_tags.
    cbn [tcp udp icmp dns ip ipv6].
    destruct b1, b2, b3, b4, i6, i4; cbn; intuition discriminate.
Qed.
